(** * The 3DAI relay server (server.js): model and verified contract

    server.js is an Express application with four route handlers.  Each
    handler reads the request, calls the text-to-3D service with
    [fetch] once (twice for the download) and writes the answer to
    [res].  The embedding below follows the file top to bottom:

    - the JSON values the handlers read and build, with the
      JavaScript operators the source applies to them
      ([||], [!], [===], [!==], property reads, [?.]);
    - [JSON.stringify] and [JSON.parse] on texts, since request
      bodies leave and response bodies arrive as text;
    - a small monad for the effects of a handler: calls to [fetch],
      writes to [res], exceptions and [try]/[catch];
    - the four handlers, statement by statement;
    - the properties of the handlers.

    The model ends where server.js ends.  Express and node-fetch
    appear through the calls the handlers make: [fetch] asks an
    oracle for the outcome of each call and logs the exchange, and
    [res.status], [res.json], [res.setHeader] and [pipe] record what
    the handler asks Express to send.  Texts are sequences of
    bytes, the UTF-8 of their characters. *)

From Stdlib Require Import ZArith NArith Ascii String List Bool Lia.
From Stdlib Require Import Decimal DecimalN DecimalFacts.
From stdpp Require Import base option strings gmap.

Import ListNotations.
Local Open Scope string_scope.
Local Open Scope Z_scope.

(** ** JSON values *)

(** What [JSON.parse] and [express.json()] deliver.  [undefined] is
    not a JSON value: a property read that finds nothing is an
    [option json] equal to [None].  Numbers are modelled on the
    integers, which JavaScript holds exactly up to
    Number.MAX_SAFE_INTEGER; numbers with a fraction or an exponent
    are outside the model.  An object keeps its properties in
    enumeration order. *)
#[warnings="-register-all"]
Inductive json : Type :=
| JNull
| JBool (b : bool)
| JNumber (n : Z)
| JString (s : string)
| JArray (items : list json)
| JObject (props : list (string * json)).

(** A JavaScript value as an expression yields it: [None] is
    [undefined]. *)
Abbreviation jsval := (option json).

Section json_induction.
Variable P : json -> Prop.
Hypothesis Hnull : P JNull.
Hypothesis Hbool : forall b, P (JBool b).
Hypothesis Hnumber : forall n, P (JNumber n).
Hypothesis Hstring : forall s, P (JString s).
Hypothesis Harray : forall items, Forall P items -> P (JArray items).
Hypothesis Hobject :
  forall props, Forall (fun kv => P (snd kv)) props -> P (JObject props).

Fixpoint json_nested_ind (v : json) : P v :=
  match v with
  | JNull => Hnull
  | JBool b => Hbool b
  | JNumber n => Hnumber n
  | JString s => Hstring s
  | JArray items =>
      Harray items
        ((fix go (l : list json) : Forall P l :=
            match l with
            | [] => @List.Forall_nil _ P
            | x :: l' => @List.Forall_cons _ _ x l' (json_nested_ind x) (go l')
            end) items)
  | JObject props =>
      Hobject props
        ((fix go (l : list (string * json)) : Forall (fun kv => P (snd kv)) l :=
            match l with
            | [] => @List.Forall_nil _ _
            | kv :: l' =>
                @List.Forall_cons _ (fun kv => P (snd kv)) kv l'
                  (json_nested_ind (snd kv)) (go l')
            end) props)
  end.
End json_induction.

(** ** Characters *)

Definition dquote : ascii := ascii_of_N 34.
Definition backslash : ascii := ascii_of_N 92.

Definition char_code (c : ascii) : N := N_of_ascii c.

Definition is_ws (c : ascii) : bool :=
  let n := char_code c in
  ((n =? 32) || (n =? 9) || (n =? 10) || (n =? 13))%N.

(** The texts of this file are written with an apostrophe where JSON
    has a double quote; [q] puts the double quotes back. *)
Fixpoint q (s : string) : string :=
  match s with
  | EmptyString => EmptyString
  | String c r => String (if Ascii.eqb c "'" then dquote else c) (q r)
  end.

(** ** Decimal numerals *)

(** The digit a character stands for, as the constructor of
    [Decimal.uint] that puts it in front of a numeral. *)
Definition digit_of_char (c : ascii) : option (uint -> uint) :=
  match (char_code c - 48)%N, (48 <=? char_code c)%N with
  | 0%N, true => Some D0
  | 1%N, _ => Some D1
  | 2%N, _ => Some D2
  | 3%N, _ => Some D3
  | 4%N, _ => Some D4
  | 5%N, _ => Some D5
  | 6%N, _ => Some D6
  | 7%N, _ => Some D7
  | 8%N, _ => Some D8
  | 9%N, _ => Some D9
  | _, _ => None
  end.

Fixpoint string_of_uint (d : uint) : string :=
  match d with
  | Nil => ""
  | D0 d => String "0" (string_of_uint d)
  | D1 d => String "1" (string_of_uint d)
  | D2 d => String "2" (string_of_uint d)
  | D3 d => String "3" (string_of_uint d)
  | D4 d => String "4" (string_of_uint d)
  | D5 d => String "5" (string_of_uint d)
  | D6 d => String "6" (string_of_uint d)
  | D7 d => String "7" (string_of_uint d)
  | D8 d => String "8" (string_of_uint d)
  | D9 d => String "9" (string_of_uint d)
  end.

(** The longest run of digits at the head of [s], and what follows. *)
Fixpoint read_uint (s : string) : uint * string :=
  match s with
  | EmptyString => (Nil, EmptyString)
  | String c r =>
      match digit_of_char c with
      | Some k => let '(d, r') := read_uint r in (k d, r')
      | None => (Nil, s)
      end
  end.

(** A numeral is canonical when it is 0 or starts with a digit other
    than 0. *)
Definition canonical (d : uint) : bool := uint_beq (unorm d) d.

(** Number.MAX_SAFE_INTEGER: up to it every integer is a double. *)
Definition MAX_SAFE_INTEGER : Z := 9007199254740991.

Definition safe_integer (n : Z) : bool :=
  (- MAX_SAFE_INTEGER <=? n) && (n <=? MAX_SAFE_INTEGER).

Definition string_of_Z (n : Z) : string :=
  match n with
  | Z0 => "0"
  | Zpos p => string_of_uint (Pos.to_uint p)
  | Zneg p => String "-" (string_of_uint (Pos.to_uint p))
  end.

(** ** Objects as JavaScript enumerates them *)

(** An array index is a canonical numeral below 2^32 - 1.  The own
    properties of an object are enumerated with the array indices
    first, in ascending order, then the other names in the order of
    their creation. *)
Definition array_index (k : string) : option N :=
  match read_uint k with
  | (d, EmptyString) =>
      if canonical d && (N.of_uint d <? 4294967295)%N
      then Some (N.of_uint d) else None
  | _ => None
  end.

Fixpoint has_key (k : string) (m : list (string * json)) : bool :=
  match m with
  | [] => false
  | (k', _) :: m' => String.eqb k k' || has_key k m'
  end.

Fixpoint obj_lookup (k : string) (m : list (string * json)) : jsval :=
  match m with
  | [] => None
  | (k', v) :: m' => if String.eqb k k' then Some v else obj_lookup k m'
  end.

Fixpoint obj_replace (k : string) (v : json) (m : list (string * json))
  : list (string * json) :=
  match m with
  | [] => []
  | (k', v') :: m' =>
      if String.eqb k k' then (k', v) :: m' else (k', v') :: obj_replace k v m'
  end.

Fixpoint obj_insert_index (i : N) (k : string) (v : json)
    (m : list (string * json)) : list (string * json) :=
  match m with
  | [] => [(k, v)]
  | (k', v') :: m' =>
      match array_index k' with
      | Some j =>
          if (j <? i)%N then (k', v') :: obj_insert_index i k v m'
          else (k, v) :: m
      | None => (k, v) :: m
      end
  end.

(** [o[k] = v] on an object under construction: an existing property
    keeps its place and takes the new value, a new one is created. *)
Definition obj_set (k : string) (v : json) (m : list (string * json))
  : list (string * json) :=
  if has_key k m then obj_replace k v m
  else match array_index k with
       | Some i => obj_insert_index i k v m
       | None => m ++ [(k, v)]
       end.

(** ** JSON.stringify *)

Definition hex_char (n : N) : ascii :=
  if (n <? 10)%N then ascii_of_N (48 + n) else ascii_of_N (87 + n).

(** QuoteJSONString, one character at a time. *)
Definition escape_char (c : ascii) : string :=
  let n := char_code c in
  if (n =? 34)%N then String backslash (String dquote "")
  else if (n =? 92)%N then String backslash (String backslash "")
  else if (n =? 8)%N then String backslash "b"
  else if (n =? 9)%N then String backslash "t"
  else if (n =? 10)%N then String backslash "n"
  else if (n =? 12)%N then String backslash "f"
  else if (n =? 13)%N then String backslash "r"
  else if (n <? 32)%N then
    String backslash
      (String "u" (String "0" (String "0"
        (String (hex_char (n / 16)) (String (hex_char (n mod 16)) "")))))
  else String c "".

Fixpoint escape (s : string) : string :=
  match s with
  | EmptyString => ""
  | String c r => escape_char c ++ escape r
  end.

Definition quote_json_string (s : string) : string :=
  String dquote (escape s ++ String dquote "").

Fixpoint join_comma (l : list string) : string :=
  match l with
  | [] => ""
  | [x] => x
  | x :: l' => x ++ String "," (join_comma l')
  end.

(** ** JSON.parse *)

Fixpoint skip_ws (s : string) : string :=
  match s with
  | EmptyString => EmptyString
  | String c r => if is_ws c then skip_ws r else s
  end.

Fixpoint strip_prefix (p s : string) : option string :=
  match p, s with
  | EmptyString, _ => Some s
  | String a p', String b s' => if Ascii.eqb a b then strip_prefix p' s' else None
  | String _ _, EmptyString => None
  end.

Definition hex_value (c : ascii) : option N :=
  let n := char_code c in
  if (48 <=? n)%N && (n <=? 57)%N then Some (n - 48)%N
  else if (97 <=? n)%N && (n <=? 102)%N then Some (n - 87)%N
  else if (65 <=? n)%N && (n <=? 70)%N then Some (n - 55)%N
  else None.

Definition hex4 (a b c d : ascii) : option N :=
  match hex_value a, hex_value b, hex_value c, hex_value d with
  | Some x, Some y, Some z, Some w => Some (((x * 16 + y) * 16 + z) * 16 + w)%N
  | _, _, _, _ => None
  end.

(** The character a one-letter escape stands for. *)
Definition unescape (e : ascii) : option ascii :=
  let n := char_code e in
  if (n =? 34)%N then Some dquote
  else if (n =? 92)%N then Some backslash
  else if (n =? 47)%N then Some "/"%char
  else if (n =? 98)%N then Some (ascii_of_N 8)
  else if (n =? 102)%N then Some (ascii_of_N 12)
  else if (n =? 110)%N then Some (ascii_of_N 10)
  else if (n =? 114)%N then Some (ascii_of_N 13)
  else if (n =? 116)%N then Some (ascii_of_N 9)
  else None.

Definition prepend (c : ascii) (o : option (string * string))
  : option (string * string) :=
  match o with
  | Some (t, rest) => Some (String c t, rest)
  | None => None
  end.

(** The characters of a string literal after its opening quote, up to
    the closing one, and the text that follows.  Texts are sequences
    of bytes: an escape [\uXXXX] is read when it names an ASCII
    character. *)
Fixpoint read_string (s : string) : option (string * string) :=
  match s with
  | EmptyString => None
  | String c r =>
      if (char_code c =? 34)%N then Some ("", r)
      else if (char_code c =? 92)%N then
        match r with
        | EmptyString => None
        | String e r' =>
            if (char_code e =? 117)%N then
              match r' with
              | String h1 (String h2 (String h3 (String h4 r''))) =>
                  match hex4 h1 h2 h3 h4 with
                  | Some n =>
                      if (n <? 128)%N then prepend (ascii_of_N n) (read_string r'')
                      else None
                  | None => None
                  end
              | _ => None
              end
            else
              match unescape e with
              | Some c' => prepend c' (read_string r')
              | None => None
              end
        end
      else if (char_code c <? 32)%N then None
      else prepend c (read_string r)
  end.

(** An integer literal: an optional minus and a canonical numeral.
    Integers beyond the safe range are not read. *)
Definition read_number (s : string) : option (Z * string) :=
  let '(neg, s1) :=
    match s with
    | String c r => if (char_code c =? 45)%N then (true, r) else (false, s)
    | EmptyString => (false, s)
    end in
  let '(d, r) := read_uint s1 in
  let n := Z.of_N (N.of_uint d) in
  let z := if neg : bool then - n else n in
  if canonical d && safe_integer z then Some (z, r) else None.

Definition head_is (n : N) (s : string) : option string :=
  match s with
  | String c r => if (char_code c =? n)%N then Some r else None
  | EmptyString => None
  end.

(** Recursive descent; [fuel] bounds the number of values and
    separators still to be read. *)
Fixpoint parse_value (fuel : nat) (s : string) : option (json * string) :=
  match fuel with
  | O => None
  | S fuel =>
      let s := skip_ws s in
      match head_is 123 s with
      | Some r =>
          match head_is 125 (skip_ws r) with
          | Some r' => Some (JObject [], r')
          | None => parse_members fuel r []
          end
      | None =>
      match head_is 91 s with
      | Some r =>
          match head_is 93 (skip_ws r) with
          | Some r' => Some (JArray [], r')
          | None => parse_elements fuel r []
          end
      | None =>
      match head_is 34 s with
      | Some r =>
          match read_string r with
          | Some (t, r') => Some (JString t, r')
          | None => None
          end
      | None =>
      match strip_prefix "null" s with
      | Some r => Some (JNull, r)
      | None =>
      match strip_prefix "true" s with
      | Some r => Some (JBool true, r)
      | None =>
      match strip_prefix "false" s with
      | Some r => Some (JBool false, r)
      | None =>
      match read_number s with
      | Some (z, r) => Some (JNumber z, r)
      | None => None
      end end end end end end end
  end
with parse_elements (fuel : nat) (s : string) (acc : list json)
  : option (json * string) :=
  match fuel with
  | O => None
  | S fuel =>
      match parse_value fuel s with
      | Some (v, r) =>
          match head_is 44 (skip_ws r) with
          | Some r' => parse_elements fuel r' (acc ++ [v])
          | None =>
              match head_is 93 (skip_ws r) with
              | Some r' => Some (JArray (acc ++ [v]), r')
              | None => None
              end
          end
      | None => None
      end
  end
with parse_members (fuel : nat) (s : string) (acc : list (string * json))
  : option (json * string) :=
  match fuel with
  | O => None
  | S fuel =>
      match head_is 34 (skip_ws s) with
      | Some r1 =>
          match read_string r1 with
          | Some (k, r2) =>
              match head_is 58 (skip_ws r2) with
              | Some r3 =>
                  match parse_value fuel r3 with
                  | Some (v, r4) =>
                      match head_is 44 (skip_ws r4) with
                      | Some r5 => parse_members fuel r5 (obj_set k v acc)
                      | None =>
                          match head_is 125 (skip_ws r4) with
                          | Some r5 => Some (JObject (obj_set k v acc), r5)
                          | None => None
                          end
                      end
                  | None => None
                  end
              | None => None
              end
          | None => None
          end
      | None => None
      end
  end.

(** ** The JSON object *)

Module JSON.

(** [JSON.stringify(v)] without indentation. *)
Fixpoint stringify (v : json) : string :=
  match v with
  | JNull => "null"
  | JBool true => "true"
  | JBool false => "false"
  | JNumber n => string_of_Z n
  | JString s => quote_json_string s
  | JArray items =>
      String "[" (join_comma (List.map stringify items) ++ "]")
  | JObject props =>
      String "{"
        (join_comma
           (List.map
              (fun kv => quote_json_string (fst kv) ++ String ":" (stringify (snd kv)))
              props) ++ "}")
  end.

(** [JSON.parse(text)].  [None] stands for the SyntaxError, and also
    for the texts this model does not read: numbers with a fraction
    or an exponent, integers beyond the safe range, escapes of
    characters that are not ASCII. *)
Definition parse (text : string) : option json :=
  match parse_value (S (String.length text)) text with
  | Some (v, r) =>
      match skip_ws r with
      | EmptyString => Some v
      | String _ _ => None
      end
  | None => None
  end.

End JSON.

(** ** JavaScript operators on values *)

(** ToBoolean: [undefined], [null], [false], [0] and the empty string
    are falsy, every other value is truthy. *)
Definition truthy (v : jsval) : bool :=
  match v with
  | None => false
  | Some JNull => false
  | Some (JBool b) => b
  | Some (JNumber n) => negb (n =? 0)
  | Some (JString s) => negb (String.eqb s "")
  | Some (JArray _) => true
  | Some (JObject _) => true
  end.

(** [v || d] for a default [d] that is a literal. *)
Definition or_else (v : jsval) (d : json) : json :=
  match v with
  | Some x => if truthy v then x else d
  | None => d
  end.

(** [v === b] for a boolean literal [b]. *)
Definition strict_eq_bool (v : jsval) (b : bool) : bool :=
  match v with
  | Some (JBool b') => Bool.eqb b' b
  | _ => false
  end.

(** [v === s] for a string literal [s]. *)
Definition strict_eq_string (v : jsval) (s : string) : bool :=
  match v with
  | Some (JString s') => String.eqb s' s
  | _ => false
  end.

(** A template literal prints [undefined] for a missing value. *)
Definition template (o : option string) : string :=
  match o with
  | Some s => s
  | None => "undefined"
  end.

(** ** Exceptions *)

Inductive exn : Type :=
| TypeError (msg : string)
| FetchError (msg : string).

(** [err.message] *)
Definition message (e : exn) : string :=
  match e with
  | TypeError msg => msg
  | FetchError msg => msg
  end.

(** ** The outside world: fetch *)

(** The second argument of [fetch]. *)
Record FetchInit : Type := {
  method : string;
  init_headers : list (string * string);
  init_body : option string
}.

(** One call [fetch(input, init)].  [input] is the value the source
    passes: a string for the API, and for the download whatever the
    task object holds under [model_urls.glb]. *)
Record FetchCall : Type := {
  input : jsval;
  init : option FetchInit
}.

(** What the handlers read of a node-fetch response: the status, the
    body as text, and the message of the FetchError that
    [response.json()] rejects with when the body is not JSON
    (node-fetch composes it from the URL and the reason the parser
    gives). *)
Record FetchResponse : Type := {
  status : Z;
  statusText : string;
  response_body : string;
  json_error : string
}.

(** [response.ok]: the status is in the range 200-299. *)
Definition ok (r : FetchResponse) : bool :=
  (200 <=? status r) && (status r <=? 299).

(** A call either rejects (network or transport failure, with the
    message of the error) or resolves with a response, whatever its
    status. *)
Inductive FetchOutcome : Type :=
| Rejected (msg : string)
| Resolved (r : FetchResponse).

Record Exchange : Type := {
  call : FetchCall;
  outcome : FetchOutcome
}.

(** The remote services, as the relay sees them: they answer each
    call, and the answer may depend on the exchanges before it. *)
Definition Upstream : Type := list Exchange -> FetchCall -> FetchOutcome.

(** ** The response under construction: res *)

Record Res : Type := {
  statusCode : Z;
  headers : gmap string string;
  sent : option string
}.

Definition fresh_res : Res :=
  {| statusCode := 200; headers := ∅; sent := None |}.

(** ** The monad of a handler *)

Record State : Type := {
  trace : list Exchange;
  res : Res
}.

Definition M (A : Type) : Type := Upstream -> State -> (exn + A) * State.

Definition ret {A} (a : A) : M A := fun _ st => (inr a, st).

Definition bind {A B} (m : M A) (k : A -> M B) : M B :=
  fun up st =>
    match m up st with
    | (inl e, st') => (inl e, st')
    | (inr a, st') => k a up st'
    end.

Definition throw {A} (e : exn) : M A := fun _ st => (inl e, st).

(** [try { body } catch (err) { handler }]: what [body] did to the
    state before it threw stays done. *)
Definition try_catch {A} (body : M A) (handler : exn -> M A) : M A :=
  fun up st =>
    match body up st with
    | (inl e, st') => handler e up st'
    | (inr a, st') => (inr a, st')
    end.

(** stdpp's notations [x ← m; k] and [m;; k] are read in this monad. *)
#[global] Instance M_ret : MRet M := @ret.
#[global] Instance M_bind : MBind M := fun A B k m => bind m k.

Definition modify_res (f : Res -> Res) : M unit :=
  fun _ st => (inr tt, {| trace := trace st; res := f (res st) |}).

(** [await fetch(input, init)] *)
Definition fetch (c : FetchCall) : M FetchResponse :=
  fun up st =>
    let o := up (trace st) c in
    let st' := {| trace := trace st ++ [{| call := c; outcome := o |}];
                  res := res st |} in
    match o with
    | Rejected msg => (inl (FetchError msg), st')
    | Resolved r => (inr r, st')
    end.

(** [await response.text()] *)
Definition text (r : FetchResponse) : M string := ret (response_body r).

(** [await response.json()]: node-fetch parses the body text and
    rejects with a FetchError when the text is not JSON. *)
Definition json_of (r : FetchResponse) : M json :=
  match JSON.parse (response_body r) with
  | Some v => ret v
  | None => throw (FetchError (json_error r))
  end.

(** The value of [v.k] for a [v] that has properties.  On an object
    the own property is looked up.  The names this program reads
    (prompt, art_style, should_remesh, preview_task_id, enable_pbr,
    status, model_urls, glb) are not properties of arrays, strings,
    numbers or booleans, nor inherited by objects: there the read
    yields [undefined]. *)
Definition field (v : json) (k : string) : jsval :=
  match v with
  | JObject props => obj_lookup k props
  | _ => None
  end.

(** [undefined] and [null] have no properties. *)
Definition nullish (v : jsval) : bool :=
  match v with
  | None => true
  | Some JNull => true
  | Some _ => false
  end.

(** A property read [v.k]: it throws on [undefined] and [null]. *)
Definition get (v : jsval) (k : string) : M jsval :=
  match v with
  | None =>
      throw (TypeError ("Cannot read properties of undefined (reading '" ++ k ++ "')"))
  | Some JNull =>
      throw (TypeError ("Cannot read properties of null (reading '" ++ k ++ "')"))
  | Some x => ret (field x k)
  end.

(** [const { k } = v], where the source text of [v] is [src]. *)
Definition destructure (v : jsval) (src k : string) : M jsval :=
  match v with
  | None =>
      throw (TypeError ("Cannot destructure property '" ++ k ++ "' of '" ++ src
                        ++ "' as it is undefined."))
  | Some JNull =>
      throw (TypeError ("Cannot destructure property '" ++ k ++ "' of '" ++ src
                        ++ "' as it is null."))
  | Some x => ret (field x k)
  end.

(** [v?.k] *)
Definition get_optional (v : jsval) (k : string) : M jsval :=
  if nullish v then ret None else get v k.

(** [res.status(code)] *)
Definition res_status (code : Z) : M unit :=
  modify_res (fun r =>
    {| statusCode := code; headers := headers r; sent := sent r |}).

(** The characters Node accepts in the value of a header are the
    tab and the characters from U+0020 to U+00FF but U+007F
    (checkInvalidHeaderChar).  A text being a sequence of UTF-8
    bytes, these are the bytes 9 and 32-126, and the two-byte
    sequences that start with 0xC2 or 0xC3; a lead byte from 0xC4 on
    starts a character above U+00FF. *)
Definition header_byte (c : ascii) : bool :=
  let n := char_code c in
  ((n =? 9) || ((32 <=? n) && (n <=? 126)) || ((128 <=? n) && (n <=? 195)))%N.

Fixpoint valid_header_value (value : string) : bool :=
  match value with
  | EmptyString => true
  | String c rest => header_byte c && valid_header_value rest
  end.

(** [res.setHeader(name, value)]: Node throws a TypeError
    (ERR_INVALID_CHAR) and sets nothing when the value holds a
    character that a header cannot carry. *)
Definition res_setHeader (name value : string) : M unit :=
  if valid_header_value value then
    modify_res (fun r =>
      {| statusCode := statusCode r;
         headers := <[name := value]> (headers r);
         sent := sent r |})
  else
    throw (TypeError (q "Invalid character in header content ['" ++ name ++ q "']")).

(** The content type with the charset that [res.send] gives to a body
    that is a string, for a type written without parameters (the
    types of this program have none). *)
Definition set_charset (type : string) : string := type ++ "; charset=utf-8".

(** [res.json(v)]: the body is [JSON.stringify(v)]; Express declares
    it as JSON unless a content type is already set, and in both
    cases adds the charset. *)
Definition res_json (v : json) : M unit :=
  modify_res (fun r =>
    {| statusCode := statusCode r;
       headers :=
         match headers r !! "Content-Type" with
         | Some type => <["Content-Type" := set_charset type]> (headers r)
         | None => <["Content-Type" := set_charset "application/json"]> (headers r)
         end;
       sent := Some (JSON.stringify v) |}).

(** [res.send(v)] for an object [v] is [res.json(v)]. *)
Definition res_send (v : json) : M unit := res_json v.

(** [response.body.pipe(res)]: the bytes of the body go to the
    client as they are. *)
Definition pipe (r : FetchResponse) : M unit :=
  modify_res (fun rs =>
    {| statusCode := statusCode rs;
       headers := headers rs;
       sent := Some (response_body r) |}).

(** [console.error(...)]: the log is not part of the model. *)
Definition console_error : M unit := ret tt.

(** ** The requests *)

(** [req.body] is what [express.json()] (line 10) made of the body of
    the request: the parsed object or array, and [undefined] where
    the framework leaves it so for a request without a JSON body.
    [req.params] holds the named segments of the route. *)
Record Request : Type := {
  body : jsval;
  params : gmap string string
}.

(** [process.env] *)
Record Env : Type := {
  MESHY_API_KEY : option string
}.

Definition bearer (env : Env) : string :=
  "Bearer " ++ template (MESHY_API_KEY env).

Definition api_url : string := "https://api.meshy.ai/openapi/v2/text-to-3d".

(** ** The handlers *)

(** An object literal as [JSON.stringify] sees it: a property whose
    value is [undefined] is left out. *)
Fixpoint object_props (props : list (string * jsval)) : list (string * json) :=
  match props with
  | [] => []
  | (k, Some v) :: props' => (k, v) :: object_props props'
  | (_, None) :: props' => object_props props'
  end.

Definition object_literal (props : list (string * jsval)) : json :=
  JObject (object_props props).

(** The body built by POST /api/preview (lines 23-29). *)
Definition previewBody (prompt art_style should_remesh : jsval) : json :=
  JObject
    [ ("mode", JString "preview");
      ("prompt", or_else prompt (JString "3D object"));
      ("art_style", or_else art_style (JString "realistic"));
      ("should_remesh", JBool (negb (strict_eq_bool should_remesh false))) ].

(** The call to the create-task endpoint (lines 31-38 and 72-79). *)
Definition create_call (env : Env) (payload : json) : FetchCall :=
  {| input := Some (JString api_url);
     init := Some {| method := "POST";
                     init_headers := [ ("Content-Type", "application/json");
                                       ("Authorization", bearer env) ];
                     init_body := Some (JSON.stringify payload) |} |}.

(** The call that reads a task (lines 103-108 and 134-139). *)
Definition task_call (env : Env) (taskId : option string) : FetchCall :=
  {| input := Some (JString (api_url ++ "/" ++ template taskId));
     init := Some {| method := "GET";
                     init_headers := [ ("Authorization", bearer env) ];
                     init_body := None |} |}.

(** The catch clause shared by the four handlers. *)
Definition on_error (err : exn) : M unit :=
  console_error;;
  res_status 500;;
  res_json (JObject [("error", JString (message err))]).

(** The relay of an upstream answer (lines 40-47, 81-88, 110-117). *)
Definition relay (response : FetchResponse) : M unit :=
  if negb (ok response) then
    err ← text response;
    res_status (status response);;
    res_json (JObject [("error", JString err)])
  else
    data ← json_of response;
    res_json data.

(** POST /api/preview *)
Definition preview_handler (env : Env) (req : Request) : M unit :=
  try_catch
    (prompt ← destructure (body req) "req.body" "prompt";
     art_style ← destructure (body req) "req.body" "art_style";
     should_remesh ← destructure (body req) "req.body" "should_remesh";
     response ← fetch (create_call env (previewBody prompt art_style should_remesh));
     relay response)
    on_error.

(** The body built by POST /api/refine (lines 66-70). *)
Definition refineBody (preview_task_id enable_pbr : jsval) : json :=
  object_literal
    [ ("mode", Some (JString "refine"));
      ("preview_task_id", preview_task_id);
      ("enable_pbr", Some (JBool (strict_eq_bool enable_pbr true))) ].

(** POST /api/refine *)
Definition refine_handler (env : Env) (req : Request) : M unit :=
  try_catch
    (preview_task_id ← destructure (body req) "req.body" "preview_task_id";
     enable_pbr ← destructure (body req) "req.body" "enable_pbr";
     if negb (truthy preview_task_id) then
       res_status 400;;
       res_json (JObject [("error", JString "preview_task_id is required.")])
     else
       response ← fetch (create_call env (refineBody preview_task_id enable_pbr));
       relay response)
    on_error.

(** GET /api/task/:taskId *)
Definition task_handler (env : Env) (req : Request) : M unit :=
  try_catch
    (let taskId := params req !! "taskId" in
     response ← fetch (task_call env taskId);
     relay response)
    on_error.

(** The call to the CDN (line 159). *)
Definition glb_call (glbUrl : jsval) : FetchCall :=
  {| input := glbUrl; init := None |}.

(** The header value of line 167. *)
Definition content_disposition (taskId : option string) : string :=
  q "attachment; filename='" ++ template taskId ++ q ".glb'".

(** GET /api/download/:taskId *)
Definition download_handler (env : Env) (req : Request) : M unit :=
  try_catch
    (let taskId := params req !! "taskId" in
     response ← fetch (task_call env taskId);
     if negb (ok response) then
       err ← text response;
       console_error;;
       res_status (status response);;
       res_send (JObject [("error", JString err)])
     else
       taskData ← json_of response;
       task_status ← get (Some taskData) "status";
       if negb (strict_eq_string task_status "SUCCEEDED") then
         res_status 400;;
         res_json (JObject [("error", JString "Task is not complete or has failed.")])
       else
         model_urls ← get (Some taskData) "model_urls";
         glbUrl ← get_optional model_urls "glb";
         if negb (truthy glbUrl) then
           res_status 404;;
           res_json (JObject [("error", JString "GLB URL not found.")])
         else
           modelResponse ← fetch (glb_call glbUrl);
           if negb (ok modelResponse) then
             console_error;;
             res_status 500;;
             res_json (JObject [("error", JString "Failed to download GLB file.")])
           else
             res_setHeader "Content-Type" "model/gltf-binary";;
             res_setHeader "Content-Disposition" (content_disposition taskId);;
             pipe modelResponse)
    on_error.

(** One request served: the response sent and the exchanges with the
    remote services, in order. *)
Definition serve (handler : Request -> M unit) (up : Upstream) (req : Request)
  : Res * list Exchange :=
  let '(_, st) := handler req up {| trace := []; res := fresh_res |} in
  (res st, trace st).

(** ** Vocabulary of the statements *)

(** The response [res.status(code).json(v)] leaves behind. *)
Definition json_response (code : Z) (v : json) : Res :=
  {| statusCode := code;
     headers := {[ "Content-Type" := "application/json; charset=utf-8" ]};
     sent := Some (JSON.stringify v) |}.

(** The response [res.status(code).json({ error: msg })]. *)
Definition error_response (code : Z) (msg : string) : Res :=
  json_response code (JObject [("error", JString msg)]).

(** The response of the catch clause when line 167 threw: the content
    type set on line 166 stays, with the charset of a string body. *)
Definition header_rejected (name : string) : Res :=
  {| statusCode := 500;
     headers := {[ "Content-Type" := "model/gltf-binary; charset=utf-8" ]};
     sent := Some (JSON.stringify
                     (JObject [("error",
                                JString (q "Invalid character in header content ['"
                                         ++ name ++ q "']"))])) |}.


(** The value of [v?.k]. *)
Definition optional_field (v : jsval) (k : string) : jsval :=
  match v with
  | Some x => field x k
  | None => None
  end.

(** The names of the properties of an object, in order. *)
Definition keys (v : json) : list string :=
  match v with
  | JObject props => List.map fst props
  | _ => []
  end.

(** A request as Express hands it to a handler. *)
Definition post (b : json) : Request := {| body := Some b; params := ∅ |}.

Definition get_task (taskId : string) : Request :=
  {| body := None; params := {[ "taskId" := taskId ]} |}.

(** A handler relays the errors of the API when, on every run whose
    first exchange is answered with a status outside 200-299, it
    stops there and answers with that status and with the body text
    of the answer as error. *)
Definition relays_api_errors (handler : Request -> M unit) : Prop :=
  forall (up : Upstream) (req : Request) (c : FetchCall) (r : FetchResponse)
         (rest : list Exchange),
    (serve handler up req).2 = {| call := c; outcome := Resolved r |} :: rest ->
    ok r = false ->
    serve handler up req
    = (error_response (status r) (response_body r),
       [ {| call := c; outcome := Resolved r |} ]).

(** What the relay of lines 40-47 makes of the outcome of a call. *)
Definition relayed (o : FetchOutcome) : Res :=
  match o with
  | Rejected msg => error_response 500 msg
  | Resolved r =>
      if ok r then
        match JSON.parse (response_body r) with
        | Some data => json_response 200 data
        | None => error_response 500 (json_error r)
        end
      else error_response (status r) (response_body r)
  end.

(** Two values that [||] cannot tell apart: equal, or both falsy. *)
Definition same_or_falsy (x y : jsval) : Prop :=
  x = y \/ (truthy x = false /\ truthy y = false).


(** ** Sample inputs *)

Definition env0 : Env := {| MESHY_API_KEY := Some "msy_test" |}.

(** An answer with the given status and body text. *)
Definition answer (code : Z) (text : string) : FetchOutcome :=
  Resolved {| status := code; statusText := ""; response_body := text;
              json_error := "invalid json response body" |}.

(** Services that answer every call the same way. *)
Definition always (o : FetchOutcome) : Upstream := fun _ _ => o.

(** Services that answer the first call with [o1] and the later ones
    with [o2]. *)
Definition first_then (o1 o2 : FetchOutcome) : Upstream :=
  fun before _ => match before with [] => o1 | _ :: _ => o2 end.

(** ** Values that JavaScript can hold *)

(** [k] may come before [k'] among the properties of an object:
    the names differ, array indices ascend, and no array index comes
    after another name. *)
Definition before (k k' : string) : bool :=
  negb (String.eqb k k') &&
  match array_index k, array_index k' with
  | Some i, Some j => (i <? j)%N
  | Some _, None => true
  | None, Some _ => false
  | None, None => true
  end.

Fixpoint ordered (ks : list string) : bool :=
  match ks with
  | [] => true
  | k :: ks' => forallb (before k) ks' && ordered ks'
  end.

(** The values [JSON.parse] can deliver: safe integers, and objects
    whose properties are distinct and in enumeration order. *)
Fixpoint well_formed (v : json) : bool :=
  match v with
  | JNull => true
  | JBool _ => true
  | JNumber n => safe_integer n
  | JString _ => true
  | JArray items => forallb well_formed items
  | JObject props =>
      ordered (List.map fst props)
      && forallb (fun kv => well_formed (snd kv)) props
  end.

(** A text after which a numeral ends: it does not go on with a
    digit. *)
Definition ends_numeral (rest : string) : Prop :=
  match rest with
  | EmptyString => True
  | String c _ => digit_of_char c = None
  end.

(** The characters a serialised value can start with. *)
Definition value_start (c : ascii) : bool :=
  let n := char_code c in
  ((n =? 123) || (n =? 91) || (n =? 34) || (n =? 110) || (n =? 116)
   || (n =? 102) || (n =? 45) || ((48 <=? n) && (n <=? 57)))%N.

(** The text of one property of an object. *)
Definition member_text (kv : string * json) : string :=
  quote_json_string (fst kv) ++ String ":" (JSON.stringify (snd kv)).

(** A value is read back from its text when enough fuel is given. *)
Definition reads_back (v : json) : Prop :=
  well_formed v = true ->
  forall (fuel : nat) (rest : string),
    (String.length (JSON.stringify v) < fuel)%nat ->
    ends_numeral rest ->
    parse_value fuel (JSON.stringify v ++ rest) = Some (v, rest).

(** ** Vocabulary of the further properties *)

(** The response of a download that went through (lines 166-168). *)
Definition streamed (taskId : option string) (modelResponse : FetchResponse) : Res :=
  {| statusCode := 200;
     headers :=
       <["Content-Disposition" := content_disposition taskId]>
         (<["Content-Type" := "model/gltf-binary"]> ∅);
     sent := Some (response_body modelResponse) |}.

(** What GET /api/download/:taskId makes of the answers of the remote
    services: the response and the exchanges, path by path. *)
Definition downloaded (env : Env) (up : Upstream) (taskId : option string)
  : Res * list Exchange :=
  let c1 := task_call env taskId in
  let e1 := {| call := c1; outcome := up [] c1 |} in
  match up [] c1 with
  | Rejected msg => (error_response 500 msg, [e1])
  | Resolved r =>
      if ok r then
        match JSON.parse (response_body r) with
        | None => (error_response 500 (json_error r), [e1])
        | Some JNull =>
            (error_response 500 "Cannot read properties of null (reading 'status')",
             [e1])
        | Some t =>
            if strict_eq_string (field t "status") "SUCCEEDED" then
              let glbUrl := optional_field (field t "model_urls") "glb" in
              if truthy glbUrl then
                let c2 := glb_call glbUrl in
                let e2 := {| call := c2; outcome := up [e1] c2 |} in
                match up [e1] c2 with
                | Rejected msg => (error_response 500 msg, [e1; e2])
                | Resolved r2 =>
                    if ok r2 then
                      if valid_header_value (content_disposition taskId)
                      then (streamed taskId r2, [e1; e2])
                      else (header_rejected "Content-Disposition", [e1; e2])
                    else (error_response 500 "Failed to download GLB file.", [e1; e2])
                end
              else (error_response 404 "GLB URL not found.", [e1])
            else (error_response 400 "Task is not complete or has failed.", [e1])
        end
      else (error_response (status r) (response_body r), [e1])
  end.

(** A handler reports the failures of the transport when, on every
    run whose first call is rejected, it stops there and answers 500
    with the message of the error. *)
Definition reports_rejections (handler : Request -> M unit) : Prop :=
  forall (up : Upstream) (req : Request) (c : FetchCall) (msg : string)
         (rest : list Exchange),
    (serve handler up req).2 = {| call := c; outcome := Rejected msg |} :: rest ->
    serve handler up req
    = (error_response 500 msg, [ {| call := c; outcome := Rejected msg |} ]).

(** A call to the API: its address starts with the API URL and it
    carries the bearer token of the environment. *)
Definition authorized (env : Env) (c : FetchCall) : Prop :=
  exists (path : string) (i : FetchInit),
    input c = Some (JString (api_url ++ path))
    /\ init c = Some i
    /\ In ("Authorization", bearer env) (init_headers i).

(** A call with no second argument: no method, header or body is
    given to [fetch]. *)
Definition anonymous (c : FetchCall) : Prop := init c = None.

(** The body of a response is a JSON text, one that is read back. *)
Definition answers_json (rs : Res) : Prop :=
  exists v : json,
    sent rs = Some (JSON.stringify v)
    /\ JSON.parse (JSON.stringify v) = Some v.

(** ** JSON texts: what is written is read back *)

(** *** Numerals *)

Lemma append_cons (c : ascii) (s t : string) :
  String c s ++ t = String c (s ++ t).
Proof. reflexivity. Qed.

Lemma append_empty (t : string) : "" ++ t = t.
Proof. reflexivity. Qed.

Lemma append_assoc (s t u : string) : (s ++ t) ++ u = s ++ (t ++ u).
Proof. induction s as [| c s IH]; [done |]. by rewrite !append_cons, IH. Qed.

Lemma append_empty_r (s : string) : s ++ "" = s.
Proof. induction s as [| c s IH]; [done |]. by rewrite append_cons, IH. Qed.

Lemma length_append (s t : string) :
  String.length (s ++ t) = (String.length s + String.length t)%nat.
Proof. induction s as [| c s IH]; [done |]. rewrite append_cons. cbn. by rewrite IH. Qed.

Lemma read_uint_string_of_uint (d : uint) (rest : string) :
  ends_numeral rest ->
  read_uint (string_of_uint d ++ rest) = (d, rest).
Proof.
  intros Hrest.
  induction d;
    [| cbn [string_of_uint]; rewrite append_cons; cbn; by rewrite IHd ..].
  destruct rest as [| c rest]; [reflexivity |].
  unfold ends_numeral in Hrest. cbn [string_of_uint read_uint].
  rewrite append_empty. cbn [read_uint]. by rewrite Hrest.
Qed.

Lemma read_uint_whole (s : string) (d : uint) :
  read_uint s = (d, "") -> s = string_of_uint d.
Proof.
  revert d. induction s as [| c s IH]; intros d; cbn.
  - by intros [= <-].
  - destruct (digit_of_char c) as [k |] eqn:Hk; [| discriminate].
    destruct (read_uint s) as [d' r']. intros [= <- ->].
    rewrite (IH d' eq_refl). clear IH.
    unfold digit_of_char in Hk.
    destruct c as [[] [] [] [] [] [] [] []]; vm_compute in Hk;
      try discriminate; by injection Hk as <-.
Qed.

Lemma uint_beq_eq (d d' : uint) : uint_beq d d' = true <-> d = d'.
Proof.
  split; [apply internal_uint_dec_bl | apply internal_uint_dec_lb].
Qed.

Lemma canonical_to_uint (n : N) : canonical (N.to_uint n) = true.
Proof.
  unfold canonical. apply uint_beq_eq.
  rewrite <- (DecimalN.Unsigned.of_to n) at 2.
  symmetry. apply DecimalN.Unsigned.to_of.
Qed.

Lemma of_uint_canonical_inj (d d' : uint) :
  canonical d = true -> canonical d' = true ->
  N.of_uint d = N.of_uint d' -> d = d'.
Proof.
  unfold canonical. rewrite !uint_beq_eq. intros Hd Hd' H.
  rewrite <- Hd, <- Hd'. by apply DecimalN.Unsigned.of_inj.
Qed.

Lemma array_index_inj (k k' : string) (i : N) :
  array_index k = Some i -> array_index k' = Some i -> k = k'.
Proof.
  unfold array_index.
  destruct (read_uint k) as [d [|]] eqn:Hk; [| discriminate].
  destruct (read_uint k') as [d' [|]] eqn:Hk'; [| discriminate].
  destruct (canonical d) eqn:Hd; [| discriminate].
  destruct (canonical d') eqn:Hd'; [| discriminate].
  cbn. destruct (_ <? _)%N; [| discriminate].
  destruct (_ <? _)%N; [| discriminate].
  intros [= <-] [= H].
  rewrite (read_uint_whole _ _ Hk), (read_uint_whole _ _ Hk').
  f_equal. by apply of_uint_canonical_inj.
Qed.

Lemma string_of_pos_head (p : positive) :
  exists c t, string_of_uint (Pos.to_uint p) = String c t
              /\ (48 <=? char_code c)%N && (char_code c <=? 57)%N = true.
Proof.
  pose proof (DecimalPos.Unsigned.to_uint_nonnil p) as Hnil.
  destruct (Pos.to_uint p); try done; cbn; by eexists _, _.
Qed.

Lemma read_number_digits (neg : bool) (d : uint) (s rest : string) :
  read_uint s = (d, rest) ->
  read_number (if neg then String "-" s else s)
  = (if neg
     then (let z := - Z.of_N (N.of_uint d) in
           if canonical d && safe_integer z then Some (z, rest) else None)
     else match s with
          | String c _ =>
              if (char_code c =? 45)%N then read_number s
              else (let z := Z.of_N (N.of_uint d) in
                    if canonical d && safe_integer z then Some (z, rest) else None)
          | EmptyString => None
          end).
Proof.
  intros H. unfold read_number. destruct neg.
  - change (char_code "-" =? 45)%N with true. cbv iota. by rewrite H.
  - destruct s as [| c s'].
    + cbn in H. injection H as <- <-. reflexivity.
    + destruct (char_code c =? 45)%N; [reflexivity |]. by rewrite H.
Qed.

Lemma read_number_string_of_Z (n : Z) (rest : string) :
  safe_integer n = true ->
  ends_numeral rest ->
  read_number (string_of_Z n ++ rest) = Some (n, rest).
Proof.
  intros Hsafe Hrest.
  destruct n as [| p | p]; cbn [string_of_Z].
  - change ("0" ++ rest) with (string_of_uint (D0 Nil) ++ rest).
    rewrite (read_number_digits false (D0 Nil) _ rest
               (read_uint_string_of_uint (D0 Nil) rest Hrest)).
    reflexivity.
  - pose proof (read_uint_string_of_uint (Pos.to_uint p) rest Hrest) as H.
    rewrite (read_number_digits false _ _ _ H).
    destruct (string_of_pos_head p) as (c & t & E & Hc).
    rewrite E, append_cons.
    apply andb_true_iff in Hc as [Hc%N.leb_le _].
    assert ((char_code c =? 45)%N = false) as -> by (apply N.eqb_neq; lia).
    change (Pos.to_uint p) with (N.to_uint (Npos p)).
    rewrite canonical_to_uint, DecimalN.Unsigned.of_to. cbn [Z.of_N].
    cbv zeta. by rewrite Hsafe.
  - pose proof (read_uint_string_of_uint (Pos.to_uint p) rest Hrest) as H.
    rewrite append_cons.
    rewrite (read_number_digits true _ _ _ H).
    change (Pos.to_uint p) with (N.to_uint (Npos p)).
    rewrite canonical_to_uint, DecimalN.Unsigned.of_to. cbn [Z.of_N].
    cbv zeta. change (- Z.pos p) with (Z.neg p). by rewrite Hsafe.
Qed.

(** *** String literals *)

Lemma read_string_escape_char (c : ascii) (tail : string) :
  read_string (escape_char c ++ tail) = prepend c (read_string tail).
Proof. destruct c as [[] [] [] [] [] [] [] []]; reflexivity. Qed.

Lemma read_string_escape (s rest : string) :
  read_string (escape s ++ String dquote rest) = Some (s, rest).
Proof.
  induction s as [| c s IH]; [reflexivity |].
  cbn [escape]. by rewrite append_assoc, read_string_escape_char, IH.
Qed.

(** *** The first character of a serialised value *)

Lemma stringify_head (v : json) :
  exists c t, JSON.stringify v = String c t /\ value_start c = true.
Proof.
  destruct v as [| [] | n | s | items | props]; cbn [JSON.stringify];
    try (by eexists _, _).
  destruct n as [| p | p]; cbn [string_of_Z]; try (by eexists _, _).
  destruct (string_of_pos_head p) as (c & t & E & Hc).
  exists c, t. split; [done |]. unfold value_start.
  rewrite Hc. by rewrite !orb_true_r.
Qed.

Lemma skip_ws_value (c : ascii) (t : string) :
  value_start c = true -> skip_ws (String c t) = String c t.
Proof.
  intros H. cbn [skip_ws].
  destruct c as [[] [] [] [] [] [] [] []]; try discriminate H; reflexivity.
Qed.

Lemma head_is_value (n : N) (c : ascii) (t : string) :
  value_start c = true ->
  (n = 93 \/ n = 125 \/ n = 44 \/ n = 58)%N ->
  head_is n (String c t) = None.
Proof.
  intros H Hn. cbn [head_is].
  destruct c as [[] [] [] [] [] [] [] []]; try discriminate H;
    destruct Hn as [-> | [-> | [-> | ->]]]; reflexivity.
Qed.

(** *** Objects keep their enumeration order *)

Lemma ordered_cons (k : string) (ks : list string) :
  ordered (k :: ks) = true
  <-> (forall x, In x ks -> before k x = true) /\ ordered ks = true.
Proof. cbn [ordered]. by rewrite andb_true_iff, forallb_forall. Qed.

Lemma ordered_snoc (ks : list string) (k : string) :
  ordered (ks ++ [k])%list = true
  <-> ordered ks = true /\ forall x, In x ks -> before x k = true.
Proof.
  induction ks as [| k' ks IH].
  - cbn. split; [intros _; by split | done].
  - rewrite <- app_comm_cons, !ordered_cons, IH. split.
    + intros [H1 [H2 H3]]. split; [split |].
      * intros x Hx. apply H1, in_or_app. by left.
      * done.
      * intros x [<- | Hx]; [| by apply H3].
        apply H1, in_or_app. right. by left.
    + intros [[H1 H2] H3]. split; [| split].
      * intros x [Hx | [<- | []]]%in_app_or; [by apply H1 |].
        apply H3. by left.
      * done.
      * intros x Hx. apply H3. by right.
Qed.

Lemma before_distinct (k k' : string) : before k k' = true -> k <> k'.
Proof.
  unfold before. intros [H _]%andb_true_iff ->.
  by rewrite String.eqb_refl in H.
Qed.

Lemma has_key_false (k : string) (m : list (string * json)) :
  has_key k m = false <-> forall x, In x (List.map fst m) -> x <> k.
Proof.
  induction m as [| [k' v'] m IH]; cbn.
  - split; [intros _ x []| done].
  - rewrite orb_false_iff, IH, String.eqb_neq. split.
    + intros [H1 H2] x [<- | Hx]; [congruence | by apply H2].
    + intros H. split; [intros ->; eapply H; [by left | done] |].
      intros x Hx. apply H. by right.
Qed.

Lemma keys_obj_replace (k : string) (v : json) (m : list (string * json)) :
  List.map fst (obj_replace k v m) = List.map fst m.
Proof.
  induction m as [| [k' v'] m IH]; [done |]. cbn.
  destruct (String.eqb k k'); cbn; by rewrite ?IH.
Qed.

Lemma in_obj_replace (k : string) (v : json) (m : list (string * json)) kv :
  In kv (obj_replace k v m) -> snd kv = v \/ In kv m.
Proof.
  induction m as [| [k' v'] m IH]; [done |]. cbn.
  destruct (String.eqb k k'); cbn.
  - intros [<- | H]; [by left | right; by right].
  - intros [<- | H]; [right; by left |].
    destruct (IH H); [by left | right; by right].
Qed.

Lemma in_obj_insert_index (i : N) (k : string) (v : json)
    (m : list (string * json)) kv :
  In kv (obj_insert_index i k v m) -> kv = (k, v) \/ In kv m.
Proof.
  induction m as [| [k' v'] m IH]; cbn.
  - intros [<- | []]. by left.
  - destruct (array_index k') as [j |]; [destruct (j <? i)%N |]; cbn.
    + intros [<- | H]; [right; by left |].
      destruct (IH H); [by left | right; by right].
    + intros [<- | H]; [by left | by right].
    + intros [<- | H]; [by left | by right].
Qed.

Lemma in_obj_set (k : string) (v : json) (m : list (string * json)) kv :
  In kv (obj_set k v m) -> snd kv = v \/ In kv m.
Proof.
  unfold obj_set. destruct (has_key k m); [apply in_obj_replace |].
  destruct (array_index k) as [i |].
  - intros [-> | H]%in_obj_insert_index; [by left | by right].
  - intros [H | [<- | []]]%in_app_or; [by right | by left].
Qed.

Lemma obj_insert_index_last (i : N) (k : string) (v : json)
    (m : list (string * json)) :
  array_index k = Some i ->
  (forall x, In x (List.map fst m) -> before x k = true) ->
  obj_insert_index i k v m = (m ++ [(k, v)])%list.
Proof.
  intros Hk. induction m as [| [k' v'] m IH]; intros H; [done |].
  cbn. pose proof (H k' (or_introl eq_refl)) as Hb.
  unfold before in Hb. rewrite Hk in Hb.
  destruct (array_index k') as [j |]; [| by rewrite andb_false_r in Hb].
  apply andb_true_iff in Hb as [_ ->].
  rewrite IH; [done |]. intros x Hx. apply H. by right.
Qed.

Lemma obj_set_last (k : string) (v : json) (m : list (string * json)) :
  ordered (List.map fst (m ++ [(k, v)])%list) = true ->
  obj_set k v m = (m ++ [(k, v)])%list.
Proof.
  rewrite map_app. cbn [List.map fst]. intros [_ H]%ordered_snoc.
  unfold obj_set.
  assert (has_key k m = false) as ->.
  { apply has_key_false. intros x Hx. by apply before_distinct, H. }
  destruct (array_index k) as [i |] eqn:Hk; [| done].
  by apply obj_insert_index_last.
Qed.

Lemma ordered_obj_insert_index (i : N) (k : string) (v : json)
    (m : list (string * json)) :
  array_index k = Some i ->
  has_key k m = false ->
  ordered (List.map fst m) = true ->
  ordered (List.map fst (obj_insert_index i k v m)) = true.
Proof.
  intros Hk. induction m as [| [k' v'] m IH]; intros Hfresh Hord; [done |].
  cbn [List.map fst] in Hord. apply ordered_cons in Hord as [Hk' Hm].
  cbn in Hfresh. apply orb_false_iff in Hfresh as [Hne Hfresh].
  apply String.eqb_neq in Hne.
  assert (Hafter : forall j, array_index k' = Some j -> (j <? i)%N = false ->
                             before k k' = true).
  { intros j Hj Hlt. unfold before. rewrite Hk, Hj.
    apply andb_true_iff. split; [by apply negb_true_iff, String.eqb_neq |].
    apply N.ltb_lt. apply N.ltb_ge in Hlt.
    assert (i <> j) by (intros ->; by apply Hne, (array_index_inj k k' j)).
    lia. }
  assert (Hrest : forall x, In x (List.map fst m) ->
                  before k k' = true -> before k x = true).
  { intros x Hx Hkk'. pose proof (Hk' x Hx) as Hb.
    assert (x <> k) as Hxk by (by apply has_key_false with (m := m)).
    unfold before in Hb, Hkk' |- *. rewrite Hk in Hkk' |- *.
    apply andb_true_iff in Hb as [_ Hb]. apply andb_true_iff in Hkk' as [_ Hkk'].
    apply andb_true_iff. split.
    { apply negb_true_iff, String.eqb_neq. congruence. }
    destruct (array_index x) as [l |]; [| done].
    destruct (array_index k') as [j |]; [| done].
    apply N.ltb_lt in Hb, Hkk'. apply N.ltb_lt. lia. }
  cbn [obj_insert_index].
  destruct (array_index k') as [j |] eqn:Hj; [destruct (j <? i)%N eqn:Hlt |].
  - cbn [List.map fst]. apply ordered_cons. split; [| by apply IH].
    intros x Hx. apply in_map_iff in Hx as ([x1 x2] & <- & Hx).
    apply in_obj_insert_index in Hx as [[= -> ->] | Hx].
    + cbn [fst]. unfold before. rewrite Hj, Hk, Hlt.
      apply andb_true_iff. split; [| done].
      apply negb_true_iff, String.eqb_neq. congruence.
    + apply Hk'. apply in_map_iff. by exists (x1, x2).
  - cbn [List.map fst]. apply ordered_cons. split.
    + intros x [<- | Hx]; [by apply (Hafter j) |].
      apply Hrest; [done | by apply (Hafter j)].
    + apply ordered_cons. by split.
  - assert (before k k' = true) as Hkk'.
    { unfold before. rewrite Hk, Hj.
      apply andb_true_iff. split; [| done].
      by apply negb_true_iff, String.eqb_neq. }
    cbn [List.map fst]. apply ordered_cons. split.
    + intros x [<- | Hx]; [done | by apply Hrest].
    + apply ordered_cons. by split.
Qed.

Lemma ordered_obj_set (k : string) (v : json) (m : list (string * json)) :
  ordered (List.map fst m) = true ->
  ordered (List.map fst (obj_set k v m)) = true.
Proof.
  intros Hord. unfold obj_set.
  destruct (has_key k m) eqn:Hfresh; [by rewrite keys_obj_replace |].
  destruct (array_index k) as [i |] eqn:Hk.
  - by apply ordered_obj_insert_index.
  - rewrite map_app. cbn [List.map fst]. apply ordered_snoc. split; [done |].
    intros x Hx. unfold before. rewrite Hk.
    apply andb_true_iff. split.
    + apply negb_true_iff, String.eqb_neq. by eapply has_key_false.
    + by destruct (array_index x).
Qed.

(** *** What is read is well formed *)

Lemma read_number_safe (s : string) (n : Z) (r : string) :
  read_number s = Some (n, r) -> safe_integer n = true.
Proof.
  unfold read_number.
  destruct (match s with
            | String c r0 => if (char_code c =? 45)%N then (true, r0) else (false, s)
            | EmptyString => (false, s)
            end) as [neg s1].
  destruct (read_uint s1) as [d r'].
  destruct (canonical d); cbn [andb]; [| discriminate].
  destruct (safe_integer _) eqn:E; [| discriminate].
  by intros [= <- _].
Qed.

Lemma well_formed_snoc (acc : list json) (v : json) :
  forallb well_formed acc = true -> well_formed v = true ->
  forallb well_formed (acc ++ [v]) = true.
Proof. intros Ha Hv. rewrite forallb_app. cbn. by rewrite Ha, Hv. Qed.

Lemma well_formed_obj_set (k : string) (v : json) (acc : list (string * json)) :
  well_formed (JObject acc) = true -> well_formed v = true ->
  well_formed (JObject (obj_set k v acc)) = true.
Proof.
  cbn [well_formed]. intros [Ho Hv]%andb_true_iff Hw.
  apply andb_true_iff. split; [by apply ordered_obj_set |].
  apply forallb_forall. intros kv [-> | Hin]%in_obj_set; [done |].
  by eapply forallb_forall in Hv.
Qed.

Lemma parse_well_formed (fuel : nat) :
  (forall s v r, parse_value fuel s = Some (v, r) -> well_formed v = true)
  /\ (forall s acc v r,
        forallb well_formed acc = true ->
        parse_elements fuel s acc = Some (v, r) -> well_formed v = true)
  /\ (forall s acc v r,
        well_formed (JObject acc) = true ->
        parse_members fuel s acc = Some (v, r) -> well_formed v = true).
Proof.
  induction fuel as [| fuel (IHv & IHe & IHm)]; [done |].
  split; [| split].
  - intros s v r. cbn [parse_value].
    repeat case_match; intros Hparse; simplify_eq; try done.
    + by apply (IHm _ [] _ _ eq_refl Hparse).
    + by apply (IHe _ [] _ _ eq_refl Hparse).
    + by eapply read_number_safe.
  - intros s acc v r Hacc. cbn [parse_elements].
    repeat case_match; try discriminate.
    + apply IHe, well_formed_snoc; [done | by eapply IHv].
    + intros [= <- <-]. cbn [well_formed].
      apply well_formed_snoc; [done | by eapply IHv].
  - intros s acc v r Hacc. cbn [parse_members].
    repeat case_match; try discriminate.
    + apply IHm, well_formed_obj_set; [done | by eapply IHv].
    + intros [= <- <-]. apply well_formed_obj_set; [done | by eapply IHv].
Qed.

Lemma JSON_parse_well_formed (text : string) (v : json) :
  JSON.parse text = Some v -> well_formed v = true.
Proof.
  unfold JSON.parse.
  destruct (parse_value _ text) as [[v' r] |] eqn:E; [| discriminate].
  destruct (skip_ws r); [| discriminate]. intros [= <-].
  by eapply (proj1 (parse_well_formed _)).
Qed.

(** *** What is written is read back *)

Lemma parse_value_open_array (fuel : nat) (t : string) :
  parse_value (S fuel) (String "[" t)
  = match head_is 93 (skip_ws t) with
    | Some r' => Some (JArray [], r')
    | None => parse_elements fuel t []
    end.
Proof. reflexivity. Qed.

Lemma parse_value_open_object (fuel : nat) (t : string) :
  parse_value (S fuel) (String "{" t)
  = match head_is 125 (skip_ws t) with
    | Some r' => Some (JObject [], r')
    | None => parse_members fuel t []
    end.
Proof. reflexivity. Qed.

Lemma parse_value_open_string (fuel : nat) (t : string) :
  parse_value (S fuel) (String dquote t)
  = match read_string t with
    | Some (s, r') => Some (JString s, r')
    | None => None
    end.
Proof. reflexivity. Qed.

Lemma parse_value_numeral (fuel : nat) (c : ascii) (t : string) :
  (char_code c =? 45)%N || (48 <=? char_code c)%N && (char_code c <=? 57)%N = true ->
  parse_value (S fuel) (String c t)
  = match read_number (String c t) with
    | Some (z, r) => Some (JNumber z, r)
    | None => None
    end.
Proof.
  intros H.
  destruct c as [[] [] [] [] [] [] [] []]; try discriminate H; reflexivity.
Qed.

Lemma parse_stringify_number (fuel : nat) (n : Z) (rest : string) :
  safe_integer n = true ->
  ends_numeral rest ->
  parse_value (S fuel) (string_of_Z n ++ rest) = Some (JNumber n, rest).
Proof.
  intros Hsafe Hrest.
  pose proof (read_number_string_of_Z n rest Hsafe Hrest) as Hread.
  destruct n as [| p | p].
  - cbn [string_of_Z] in *. rewrite append_cons in *.
    rewrite parse_value_numeral by done. by rewrite Hread.
  - cbn [string_of_Z] in *.
    destruct (string_of_pos_head p) as (c & t & E & Hc).
    rewrite E, append_cons in *.
    rewrite parse_value_numeral by (by rewrite Hc, orb_true_r).
    by rewrite Hread.
  - cbn [string_of_Z] in *. rewrite append_cons in *.
    rewrite parse_value_numeral by done. by rewrite Hread.
Qed.

Lemma stringify_then (v : json) (rest : string) :
  exists c t, JSON.stringify v ++ rest = String c t /\ value_start c = true.
Proof.
  destruct (stringify_head v) as (c & t & E & Hc).
  exists c, (t ++ rest). by rewrite E, append_cons.
Qed.

Lemma parse_elements_stringify (items : list json) :
  items <> [] ->
  Forall reads_back items ->
  forallb well_formed items = true ->
  forall (fuel : nat) (acc : list json) (rest : string),
    (String.length (join_comma (List.map JSON.stringify items)) + 1 < fuel)%nat ->
    parse_elements fuel
      (join_comma (List.map JSON.stringify items) ++ String "]" rest) acc
    = Some (JArray (acc ++ items), rest).
Proof.
  induction items as [| v items IH]; [done |].
  intros _ [Hv Hitems]%Forall_cons [Hwv Hwitems]%andb_true_iff fuel acc rest Hfuel.
  destruct fuel as [| fuel]; [lia |]. cbn [parse_elements].
  destruct items as [| v' items].
  - cbn [List.map join_comma] in *.
    rewrite (Hv Hwv) by (done || lia).
    reflexivity.
  - change (join_comma (List.map JSON.stringify (v :: v' :: items)))
      with (JSON.stringify v
            ++ String "," (join_comma (List.map JSON.stringify (v' :: items)))) in *.
    rewrite length_append in Hfuel. cbn [String.length] in Hfuel.
    rewrite append_assoc, append_cons.
    rewrite (Hv Hwv) by (done || lia).
    change (head_is 44 (skip_ws (String "," ?x))) with (Some x).
    cbv iota beta.
    rewrite IH by (done || lia).
    by rewrite <- app_assoc.
Qed.

Lemma ordered_prefix (l1 l2 : list string) :
  ordered (l1 ++ l2)%list = true -> ordered l1 = true.
Proof.
  induction l1 as [| k l1 IH]; [done |].
  rewrite <- app_comm_cons, !ordered_cons. intros [H1 H2]. split; [| by apply IH].
  intros x Hx. apply H1, in_or_app. by left.
Qed.

Lemma parse_member_stringify (fuel : nat) (k : string) (v : json)
    (acc : list (string * json)) (tail : string) :
  reads_back v ->
  well_formed v = true ->
  (String.length (member_text (k, v)) < fuel)%nat ->
  ends_numeral tail ->
  parse_members (S fuel) (member_text (k, v) ++ tail) acc
  = match head_is 44 (skip_ws tail) with
    | Some r5 => parse_members fuel r5 (obj_set k v acc)
    | None =>
        match head_is 125 (skip_ws tail) with
        | Some r5 => Some (JObject (obj_set k v acc), r5)
        | None => None
        end
    end.
Proof.
  intros Hv Hwv Hfuel Htail. cbn [parse_members].
  unfold member_text in *. cbn [fst snd] in *.
  rewrite length_append in Hfuel. cbn [String.length] in Hfuel.
  rewrite append_assoc, append_cons.
  unfold quote_json_string at 1. rewrite append_cons, append_assoc, append_cons.
  change (skip_ws (String dquote ?x)) with (String dquote x).
  change (head_is 34 (String dquote ?x)) with (Some x).
  cbv iota beta. rewrite append_empty, read_string_escape.
  change (head_is 58 (skip_ws (String ":" ?x))) with (Some x).
  cbv iota beta.
  by rewrite (Hv Hwv) by (done || lia).
Qed.

Lemma parse_members_stringify (props : list (string * json)) :
  props <> [] ->
  Forall (fun kv => reads_back (snd kv)) props ->
  forallb (fun kv => well_formed (snd kv)) props = true ->
  forall (fuel : nat) (acc : list (string * json)) (rest : string),
    ordered (List.map fst (acc ++ props)%list) = true ->
    (String.length (join_comma (List.map member_text props)) + 1 < fuel)%nat ->
    parse_members fuel
      (join_comma (List.map member_text props) ++ String "}" rest) acc
    = Some (JObject (acc ++ props), rest).
Proof.
  induction props as [| [k v] props IH]; [done |].
  intros _ [Hv Hprops]%Forall_cons [Hwv Hwprops]%andb_true_iff
         fuel acc rest Hord Hfuel.
  cbn [snd] in Hv, Hwv.
  destruct fuel as [| fuel]; [lia |].
  assert (obj_set k v acc = (acc ++ [(k, v)])%list) as Hset.
  { apply obj_set_last.
    replace (acc ++ (k, v) :: props)%list
      with ((acc ++ [(k, v)]) ++ props)%list in Hord by by rewrite <- app_assoc.
    rewrite map_app in Hord. by apply ordered_prefix in Hord. }
  destruct props as [| kv' props].
  - cbn [List.map join_comma] in *.
    rewrite parse_member_stringify by (done || lia).
    rewrite Hset. reflexivity.
  - change (join_comma (List.map member_text ((k, v) :: kv' :: props)))
      with (member_text (k, v)
            ++ String "," (join_comma (List.map member_text (kv' :: props)))) in *.
    rewrite length_append in Hfuel. cbn [String.length] in Hfuel.
    rewrite append_assoc, append_cons.
    rewrite parse_member_stringify by (done || lia).
    change (head_is 44 (skip_ws (String "," ?x))) with (Some x).
    cbv iota beta. rewrite Hset.
    rewrite IH; [by rewrite <- app_assoc | done | done | done | | lia].
    by rewrite <- app_assoc.
Qed.

Lemma head_is_stringify (n : N) (v : json) (rest : string) :
  (n = 93 \/ n = 125 \/ n = 44 \/ n = 58)%N ->
  head_is n (skip_ws (JSON.stringify v ++ rest)) = None.
Proof.
  intros Hn. destruct (stringify_then v rest) as (c & t & -> & Hc).
  rewrite skip_ws_value by done. by apply head_is_value.
Qed.

Lemma join_comma_head (v : json) (l : list json) (tail : string) :
  join_comma (List.map JSON.stringify (v :: l)) ++ tail
  = JSON.stringify v
    ++ match l with
       | [] => tail
       | _ :: _ => String "," (join_comma (List.map JSON.stringify l)) ++ tail
       end.
Proof.
  destruct l as [| v' l]; [done |].
  change (join_comma (List.map JSON.stringify (v :: v' :: l)))
    with (JSON.stringify v
          ++ String "," (join_comma (List.map JSON.stringify (v' :: l)))).
  by rewrite append_assoc.
Qed.

Theorem parse_value_stringify (v : json) : reads_back v.
Proof.
  induction v as [| b | n | s | items IH | props IH] using json_nested_ind;
    intros Hwf fuel rest Hfuel Hrest;
    (destruct fuel as [| fuel]; [lia |]).
  - reflexivity.
  - by destruct b.
  - by apply parse_stringify_number.
  - cbn [JSON.stringify]. unfold quote_json_string.
    rewrite append_cons, append_assoc, append_cons, append_empty.
    by rewrite parse_value_open_string, read_string_escape.
  - cbn [JSON.stringify well_formed] in *.
    rewrite append_cons, append_assoc, append_cons, append_empty.
    rewrite parse_value_open_array.
    destruct items as [| v items]; [reflexivity |].
    rewrite join_comma_head.
    rewrite head_is_stringify by auto.
    rewrite <- join_comma_head.
    cbn [String.length] in Hfuel. rewrite length_append in Hfuel.
    cbn [String.length] in Hfuel.
    by rewrite (parse_elements_stringify (v :: items)) by (done || lia).
  - cbn [JSON.stringify well_formed] in *.
    apply andb_true_iff in Hwf as [Hord Hwf].
    rewrite append_cons, append_assoc, append_cons, append_empty.
    rewrite parse_value_open_object.
    destruct props as [| [k v] props]; [reflexivity |].
    change (fun kv : string * json =>
              quote_json_string (fst kv) ++ String ":" (JSON.stringify (snd kv)))
      with member_text in *.
    cbn [String.length] in Hfuel. rewrite length_append in Hfuel.
    cbn [String.length] in Hfuel.
    assert (head_is 125
              (skip_ws (join_comma (List.map member_text ((k, v) :: props))
                        ++ String "}" rest)) = None) as ->.
    { destruct props as [| kv' props]; reflexivity. }
    by rewrite (parse_members_stringify ((k, v) :: props)) by (done || lia).
Qed.

(** Reading the text of a well-formed value gives the value back. *)
Theorem JSON_parse_stringify (v : json) :
  well_formed v = true -> JSON.parse (JSON.stringify v) = Some v.
Proof.
  intros Hwf. unfold JSON.parse.
  rewrite <- (append_empty_r (JSON.stringify v)) at 2.
  by rewrite parse_value_stringify by (done || lia).
Qed.

(** The text of what was read is read back to the same value. *)
Corollary JSON_parse_idempotent (text : string) (v : json) :
  JSON.parse text = Some v -> JSON.parse (JSON.stringify v) = Some v.
Proof. intros H. by apply JSON_parse_stringify, (JSON_parse_well_formed text). Qed.

(** *** The reader and the writer at work *)

Example parse_enumerates_indices_first :
  JSON.parse (q "{'b': 1, '10': 2, '2': 3, 'b': [true, null]}")
  = Some (JObject [ ("2", JNumber 3); ("10", JNumber 2);
                    ("b", JArray [JBool true; JNull]) ]).
Proof. reflexivity. Qed.

Example stringify_quotes_strings :
  JSON.stringify (JObject [("error", JString (q "no 'task' here"))])
  = q "{'error':'no \'task\' here'}".
Proof. reflexivity. Qed.

Example parse_rejects_trailing_comma : JSON.parse "[1,]" = None.
Proof. reflexivity. Qed.

Example parse_rejects_leading_zero : JSON.parse "01" = None.
Proof. reflexivity. Qed.

Example parse_reads_minus_zero : JSON.parse " -0 " = Some (JNumber 0).
Proof. reflexivity. Qed.

(** *** Fuel *)

(** More fuel does not change what is read. *)
Lemma parse_more_fuel (fuel : nat) :
  (forall s x, parse_value fuel s = Some x -> parse_value (S fuel) s = Some x)
  /\ (forall s acc x,
        parse_elements fuel s acc = Some x -> parse_elements (S fuel) s acc = Some x)
  /\ (forall s acc x,
        parse_members fuel s acc = Some x -> parse_members (S fuel) s acc = Some x).
Proof.
  induction fuel as [| fuel (IHv & IHe & IHm)]; [done |].
  split; [| split].
  - intros s x. cbn [parse_value].
    destruct (head_is 123 (skip_ws s)) as [r |].
    { destruct (head_is 125 (skip_ws r)); [done | apply IHm]. }
    destruct (head_is 91 (skip_ws s)) as [r |]; [| done].
    destruct (head_is 93 (skip_ws r)); [done | apply IHe].
  - intros s acc x. cbn [parse_elements].
    destruct (parse_value fuel s) as [[v r] |] eqn:E; [| discriminate].
    rewrite (IHv _ _ E).
    destruct (head_is 44 (skip_ws r)); [apply IHe | done].
  - intros s acc x. cbn [parse_members].
    destruct (head_is 34 (skip_ws s)) as [r1 |]; [| done].
    destruct (read_string r1) as [[k r2] |]; [| done].
    destruct (head_is 58 (skip_ws r2)) as [r3 |]; [| done].
    destruct (parse_value fuel r3) as [[v r4] |] eqn:E; [| discriminate].
    rewrite (IHv _ _ E).
    destruct (head_is 44 (skip_ws r4)); [apply IHm | done].
Qed.

Lemma parse_value_fuel_le (fuel fuel' : nat) (s : string) x :
  (fuel <= fuel')%nat -> parse_value fuel s = Some x -> parse_value fuel' s = Some x.
Proof.
  induction 1 as [| fuel' _ IH]; [done |].
  intros H. by apply parse_more_fuel, IH.
Qed.

Lemma parse_elements_fuel_le (fuel fuel' : nat) (s : string) acc x :
  (fuel <= fuel')%nat ->
  parse_elements fuel s acc = Some x -> parse_elements fuel' s acc = Some x.
Proof.
  induction 1 as [| fuel' _ IH]; [done |].
  intros H. by apply parse_more_fuel, IH.
Qed.

Lemma parse_members_fuel_le (fuel fuel' : nat) (s : string) acc x :
  (fuel <= fuel')%nat ->
  parse_members fuel s acc = Some x -> parse_members fuel' s acc = Some x.
Proof.
  induction 1 as [| fuel' _ IH]; [done |].
  intros H. by apply parse_more_fuel, IH.
Qed.

Lemma skip_ws_length (s : string) :
  (String.length (skip_ws s) <= String.length s)%nat.
Proof.
  induction s as [| c s IH]; [done |]. cbn [skip_ws].
  destruct (is_ws c); cbn [String.length]; lia.
Qed.

Lemma head_is_length (n : N) (s r : string) :
  head_is n s = Some r -> String.length s = S (String.length r).
Proof.
  destruct s as [| c s]; [done |]. cbn [head_is].
  destruct (char_code c =? n)%N; [| done]. by intros [= ->].
Qed.

Lemma strip_prefix_length (p s r : string) :
  strip_prefix p s = Some r ->
  String.length s = (String.length p + String.length r)%nat.
Proof.
  revert s. induction p as [| a p IH]; intros s; cbn [strip_prefix].
  - by intros [= ->].
  - destruct s as [| b s]; [done |].
    destruct (Ascii.eqb a b); [| done].
    intros H%IH. cbn [String.length]. lia.
Qed.

Lemma read_string_length (s t r : string) :
  read_string s = Some (t, r) -> (String.length r < String.length s)%nat.
Proof.
  remember (String.length s) as n eqn:Hn.
  revert s t r Hn. induction n as [n IH] using lt_wf_ind.
  intros s t r -> H. destruct s as [| c s]; [done |].
  cbn [read_string] in H. cbn [String.length].
  assert (Hstep : forall c' s', (String.length s' <= String.length s)%nat ->
                  prepend c' (read_string s') = Some (t, r) ->
                  (String.length r < S (String.length s))%nat).
  { intros c' s' Hle Hp. unfold prepend in Hp.
    destruct (read_string s') as [[t' r'] |] eqn:E; [| done].
    injection Hp as _ <-.
    pose proof (IH (String.length s') ltac:(cbn [String.length]; lia)
                  s' t' r' eq_refl E). lia. }
  destruct (char_code c =? 34)%N; [injection H as _ <-; lia |].
  destruct (char_code c =? 92)%N.
  - destruct s as [| e s]; [done |].
    destruct (char_code e =? 117)%N.
    + destruct s as [| h1 [| h2 [| h3 [| h4 s]]]]; try done.
      destruct (hex4 h1 h2 h3 h4) as [n |]; [| done].
      destruct (n <? 128)%N; [| done].
      eapply Hstep; [| done]. cbn [String.length]. lia.
    + destruct (unescape e); [| done].
      eapply Hstep; [| done]. cbn [String.length]. lia.
  - destruct (char_code c <? 32)%N; [done |]. by eapply Hstep.
Qed.

Lemma read_uint_length (s : string) (d : uint) (r : string) :
  read_uint s = (d, r) ->
  (String.length r <= String.length s)%nat
  /\ (d <> Nil -> (String.length r < String.length s)%nat).
Proof.
  revert d r. induction s as [| c s IH]; intros d r; cbn [read_uint].
  - by intros [= <- <-].
  - destruct (digit_of_char c) as [k |].
    + destruct (read_uint s) as [d' r'] eqn:E. intros [= <- <-].
      destruct (IH _ _ eq_refl) as [Hle _]. cbn [String.length]. split; lia.
    + by intros [= <- <-].
Qed.

Lemma read_number_length (s : string) (n : Z) (r : string) :
  read_number s = Some (n, r) -> (String.length r < String.length s)%nat.
Proof.
  unfold read_number.
  destruct (match s with
            | String c r0 => if (char_code c =? 45)%N then (true, r0) else (false, s)
            | EmptyString => (false, s)
            end) as [neg s1] eqn:Hs.
  assert (String.length s1 <= String.length s)%nat as Hle.
  { destruct s as [| c s']; [by injection Hs as _ <- |].
    destruct (char_code c =? 45)%N; injection Hs as _ <-; cbn [String.length]; lia. }
  destruct (read_uint s1) as [d r'] eqn:E.
  destruct (canonical d) eqn:Hd; cbn [andb]; [| done].
  destruct (safe_integer _); [| done]. intros [= _ <-].
  destruct (read_uint_length _ _ _ E) as [_ Hlt].
  assert (d <> Nil) by (intros ->; discriminate Hd).
  specialize (Hlt ltac:(done)). lia.
Qed.

Ltac enough_fuel s r :=
  let F := fresh "F" in
  destruct (String.length s - String.length r)%nat as [| F] eqn:?; [lia |].

(** What is read with some fuel is read with as much fuel as the
    reading consumes characters. *)
Lemma parse_fuel_bound (fuel : nat) :
  (forall s v r,
      parse_value fuel s = Some (v, r) ->
      (String.length r < String.length s)%nat
      /\ parse_value (String.length s - String.length r) s = Some (v, r))
  /\ (forall s acc v r,
        parse_elements fuel s acc = Some (v, r) ->
        (String.length r < String.length s)%nat
        /\ parse_elements (String.length s - String.length r) s acc = Some (v, r))
  /\ (forall s acc v r,
        parse_members fuel s acc = Some (v, r) ->
        (String.length r < String.length s)%nat
        /\ parse_members (String.length s - String.length r) s acc = Some (v, r)).
Proof.
  induction fuel as [| fuel (IHv & IHe & IHm)]; [done |].
  split; [| split].
  - intros s v r. cbn [parse_value].
    pose proof (skip_ws_length s) as Hws.
    destruct (head_is 123 (skip_ws s)) as [r0 |] eqn:E1.
    { pose proof (head_is_length _ _ _ E1) as L1.
      pose proof (skip_ws_length r0) as Hws0.
      destruct (head_is 125 (skip_ws r0)) as [r1 |] eqn:E2.
      - pose proof (head_is_length _ _ _ E2) as L2. intros [= <- <-].
        split; [lia |]. enough_fuel s r1. cbn [parse_value]. by rewrite E1, E2.
      - intros H. destruct (IHm _ _ _ _ H) as [L H'].
        split; [lia |]. enough_fuel s r. cbn [parse_value]. rewrite E1, E2.
        eapply parse_members_fuel_le; [| exact H']. lia. }
    destruct (head_is 91 (skip_ws s)) as [r0 |] eqn:E3.
    { pose proof (head_is_length _ _ _ E3) as L1.
      pose proof (skip_ws_length r0) as Hws0.
      destruct (head_is 93 (skip_ws r0)) as [r1 |] eqn:E4.
      - pose proof (head_is_length _ _ _ E4) as L2. intros [= <- <-].
        split; [lia |]. enough_fuel s r1. cbn [parse_value].
        by rewrite E1, E3, E4.
      - intros H. destruct (IHe _ _ _ _ H) as [L H'].
        split; [lia |]. enough_fuel s r. cbn [parse_value]. rewrite E1, E3, E4.
        eapply parse_elements_fuel_le; [| exact H']. lia. }
    destruct (head_is 34 (skip_ws s)) as [r0 |] eqn:E5.
    { pose proof (head_is_length _ _ _ E5) as L1.
      destruct (read_string r0) as [[t r1] |] eqn:E6; [| done].
      pose proof (read_string_length _ _ _ E6) as L2. intros [= <- <-].
      split; [lia |]. enough_fuel s r1. cbn [parse_value].
      by rewrite E1, E3, E5, E6. }
    destruct (strip_prefix "null" (skip_ws s)) as [r0 |] eqn:E7.
    { pose proof (strip_prefix_length _ _ _ E7) as L1. cbn [String.length] in L1.
      intros [= <- <-]. split; [lia |]. enough_fuel s r0. cbn [parse_value].
      by rewrite E1, E3, E5, E7. }
    destruct (strip_prefix "true" (skip_ws s)) as [r0 |] eqn:E8.
    { pose proof (strip_prefix_length _ _ _ E8) as L1. cbn [String.length] in L1.
      intros [= <- <-]. split; [lia |]. enough_fuel s r0. cbn [parse_value].
      by rewrite E1, E3, E5, E7, E8. }
    destruct (strip_prefix "false" (skip_ws s)) as [r0 |] eqn:E9.
    { pose proof (strip_prefix_length _ _ _ E9) as L1. cbn [String.length] in L1.
      intros [= <- <-]. split; [lia |]. enough_fuel s r0. cbn [parse_value].
      by rewrite E1, E3, E5, E7, E8, E9. }
    destruct (read_number (skip_ws s)) as [[z r0] |] eqn:E10; [| done].
    pose proof (read_number_length _ _ _ E10) as L1.
    intros [= <- <-]. split; [lia |]. enough_fuel s r0. cbn [parse_value].
    by rewrite E1, E3, E5, E7, E8, E9, E10.
  - intros s acc v r. cbn [parse_elements].
    destruct (parse_value fuel s) as [[v1 r1] |] eqn:E1; [| done].
    destruct (IHv _ _ _ E1) as [L1 H1].
    pose proof (skip_ws_length r1) as Hws.
    destruct (head_is 44 (skip_ws r1)) as [r2 |] eqn:E2.
    + pose proof (head_is_length _ _ _ E2) as L2.
      intros H. destruct (IHe _ _ _ _ H) as [L3 H3].
      split; [lia |]. enough_fuel s r. cbn [parse_elements].
      assert (parse_value F s = Some (v1, r1)) as ->
        by (eapply parse_value_fuel_le; [| exact H1]; lia).
      rewrite E2.
      eapply parse_elements_fuel_le; [| exact H3]. lia.
    + destruct (head_is 93 (skip_ws r1)) as [r2 |] eqn:E3; [| done].
      pose proof (head_is_length _ _ _ E3) as L2. intros [= <- <-].
      split; [lia |]. enough_fuel s r2. cbn [parse_elements].
      assert (parse_value F s = Some (v1, r1)) as ->
        by (eapply parse_value_fuel_le; [| exact H1]; lia).
      by rewrite E2, E3.
  - intros s acc v r. cbn [parse_members].
    pose proof (skip_ws_length s) as Hws.
    destruct (head_is 34 (skip_ws s)) as [r1 |] eqn:E1; [| done].
    pose proof (head_is_length _ _ _ E1) as L1.
    destruct (read_string r1) as [[k r2] |] eqn:E2; [| done].
    pose proof (read_string_length _ _ _ E2) as L2.
    pose proof (skip_ws_length r2) as Hws2.
    destruct (head_is 58 (skip_ws r2)) as [r3 |] eqn:E3; [| done].
    pose proof (head_is_length _ _ _ E3) as L3.
    destruct (parse_value fuel r3) as [[v1 r4] |] eqn:E4; [| done].
    destruct (IHv _ _ _ E4) as [L4 H4].
    pose proof (skip_ws_length r4) as Hws4.
    destruct (head_is 44 (skip_ws r4)) as [r5 |] eqn:E5.
    + pose proof (head_is_length _ _ _ E5) as L5.
      intros H. destruct (IHm _ _ _ _ H) as [L6 H6].
      split; [lia |]. enough_fuel s r. cbn [parse_members].
      assert (parse_value F r3 = Some (v1, r4)) as HF
        by (eapply parse_value_fuel_le; [| exact H4]; lia).
      rewrite E1, E2, E3, HF, E5.
      eapply parse_members_fuel_le; [| exact H6]. lia.
    + destruct (head_is 125 (skip_ws r4)) as [r5 |] eqn:E6; [| done].
      pose proof (head_is_length _ _ _ E6) as L5. intros [= <- <-].
      split; [lia |]. enough_fuel s r5. cbn [parse_members].
      assert (parse_value F r3 = Some (v1, r4)) as HF
        by (eapply parse_value_fuel_le; [| exact H4]; lia).
      by rewrite E1, E2, E3, HF, E5, E6.
Qed.

(** The fuel [JSON.parse] gives is enough: a text that is read with
    some fuel is read by [JSON.parse]. *)
Theorem JSON_parse_fuel (fuel : nat) (text : string) (v : json) (r : string) :
  parse_value fuel text = Some (v, r) ->
  skip_ws r = "" ->
  JSON.parse text = Some v.
Proof.
  intros H Hr. destruct (proj1 (parse_fuel_bound fuel) _ _ _ H) as [L H'].
  unfold JSON.parse.
  assert (parse_value (S (String.length text)) text = Some (v, r)) as ->
    by (eapply parse_value_fuel_le; [| exact H']; lia).
  by rewrite Hr.
Qed.
(** ** Running the handlers *)

Lemma is_null_dec (v : json) : {v = JNull} + {v <> JNull}.
Proof. destruct v; (by left) || (by right). Qed.

Lemma destructure_defined (b : json) (src k : string) :
  b <> JNull -> destructure (Some b) src k = ret (field b k).
Proof. intros Hb. destruct b; done. Qed.

Lemma get_defined (b : json) (k : string) :
  b <> JNull -> get (Some b) k = ret (field b k).
Proof. intros Hb. destruct b; done. Qed.

Lemma get_optional_defined (v : jsval) (k : string) :
  get_optional v k = ret (optional_field v k).
Proof. destruct v as [[]|]; reflexivity. Qed.

Lemma strict_eq_string_true (v : jsval) (s : string) :
  strict_eq_string v s = true <-> v = Some (JString s).
Proof.
  destruct v as [[]|]; cbn; try (split; [discriminate | congruence]).
  rewrite String.eqb_eq. split; congruence.
Qed.

Lemma strict_eq_bool_true (v : jsval) (b : bool) :
  strict_eq_bool v b = true <-> v = Some (JBool b).
Proof.
  destruct v as [[]|]; cbn; try (split; [discriminate | congruence]).
  rewrite Bool.eqb_true_iff. split; congruence.
Qed.

Lemma or_else_falsy (v : jsval) (d : json) : truthy v = false -> or_else v d = d.
Proof. unfold or_else. destruct v; [intros -> |]; reflexivity. Qed.

Lemma or_else_same (x y : jsval) (d : json) :
  same_or_falsy x y -> or_else x d = or_else y d.
Proof.
  intros [-> | [Hx Hy]]; [reflexivity |].
  by rewrite !or_else_falsy.
Qed.

#[local] Arguments get : simpl never.
#[local] Arguments get_optional : simpl never.
#[local] Arguments destructure : simpl never.

Ltac start handler :=
  unfold serve, handler; cbn beta iota delta [body params];
  rewrite ?destructure_defined by done.

Ltac run :=
  unfold relay, on_error, try_catch, json_of, text, fetch,
    res_status, res_json, res_send, res_setHeader, pipe, console_error, modify_res,
    mbind, M_bind, bind, mret, M_ret, ret, throw; cbn.

Lemma serve_preview (env : Env) (up : Upstream) (ps : gmap string string) (b : json) :
  b <> JNull ->
  let c := create_call env
             (previewBody (field b "prompt") (field b "art_style")
                (field b "should_remesh")) in
  serve (preview_handler env) up {| body := Some b; params := ps |}
  = (relayed (up [] c), [ {| call := c; outcome := up [] c |} ]).
Proof.
  intros Hb c. start preview_handler. run. fold c.
  destruct (up [] c) as [msg | r]; cbn; [done |].
  destruct (ok r); cbn; [| done].
  by destruct (JSON.parse (response_body r)).
Qed.

Lemma serve_refine_call (env : Env) (up : Upstream) (ps : gmap string string) (b : json) :
  b <> JNull ->
  truthy (field b "preview_task_id") = true ->
  let c := create_call env
             (refineBody (field b "preview_task_id") (field b "enable_pbr")) in
  serve (refine_handler env) up {| body := Some b; params := ps |}
  = (relayed (up [] c), [ {| call := c; outcome := up [] c |} ]).
Proof.
  intros Hb Hid c. start refine_handler. run. rewrite Hid. cbn. fold c.
  destruct (up [] c) as [msg | r]; cbn; [done |].
  destruct (ok r); cbn; [| done].
  by destruct (JSON.parse (response_body r)).
Qed.

Lemma serve_refine_refused (env : Env) (up : Upstream) (ps : gmap string string) (b : json) :
  b <> JNull ->
  truthy (field b "preview_task_id") = false ->
  serve (refine_handler env) up {| body := Some b; params := ps |}
  = (error_response 400 "preview_task_id is required.", []).
Proof. intros Hb Hid. start refine_handler. run. by rewrite Hid. Qed.

(** Without a body to destructure the handler throws before any call
    and the catch clause answers 500. *)
Lemma serve_without_body (env : Env) (up : Upstream) (ps : gmap string string) :
  serve (preview_handler env) up {| body := None; params := ps |}
  = (error_response 500
       "Cannot destructure property 'prompt' of 'req.body' as it is undefined.",
     [])
  /\ serve (refine_handler env) up {| body := None; params := ps |}
     = (error_response 500
          "Cannot destructure property 'preview_task_id' of 'req.body' as it is undefined.",
        []).
Proof. by split. Qed.

Lemma serve_task (env : Env) (up : Upstream) (req : Request) :
  let c := task_call env (params req !! "taskId") in
  serve (task_handler env) up req
  = (relayed (up [] c), [ {| call := c; outcome := up [] c |} ]).
Proof.
  intros c. start task_handler. run. fold c.
  destruct (up [] c) as [msg | r]; cbn; [done |].
  destruct (ok r); cbn; [| done].
  by destruct (JSON.parse (response_body r)).
Qed.

Lemma well_formed_field (b : json) (k : string) (x : json) :
  well_formed b = true -> field b k = Some x -> well_formed x = true.
Proof.
  destruct b as [| | | | | props]; try done. cbn [well_formed field].
  intros [_ Hv]%andb_true_iff. induction props as [| [k' v'] props IH]; [done |].
  cbn in Hv |- *. apply andb_true_iff in Hv as [Hv' Hv].
  destruct (String.eqb k k'); [by intros [= <-] | by apply IH].
Qed.

Lemma well_formed_or_else (v : jsval) (d : json) :
  (forall x, v = Some x -> well_formed x = true) ->
  well_formed d = true -> well_formed (or_else v d) = true.
Proof.
  intros Hv Hd. unfold or_else. destruct v as [x |]; [| done].
  destruct (truthy (Some x)); [by apply Hv | done].
Qed.

Lemma well_formed_previewBody (b : json) :
  well_formed b = true ->
  well_formed (previewBody (field b "prompt") (field b "art_style")
                 (field b "should_remesh")) = true.
Proof.
  intros Hwf. unfold previewBody. cbn [well_formed].
  apply andb_true_iff. split; [reflexivity |]. cbn [forallb snd].
  rewrite !well_formed_or_else; [done | | done | | done];
    intros x Hx; by eapply well_formed_field.
Qed.

Lemma well_formed_refineBody (b id : json) :
  well_formed b = true ->
  field b "preview_task_id" = Some id ->
  well_formed (refineBody (Some id) (field b "enable_pbr")) = true.
Proof.
  intros Hwf Hid. unfold refineBody, object_literal.
  cbn [object_props well_formed].
  apply andb_true_iff. split; [reflexivity |]. cbn [forallb snd well_formed].
  by rewrite (well_formed_field b "preview_task_id" id).
Qed.

(** ** The two tests the handlers branch on *)

(** [response.ok] holds for the statuses 200 to 299 and no other. *)
Lemma ok_range (r : FetchResponse) :
  ok r = true <-> (200 <= status r <= 299)%Z.
Proof. unfold ok. rewrite andb_true_iff, !Z.leb_le. tauto. Qed.

Example ok_at_the_bounds :
  List.map (fun code => ok {| status := code; statusText := "OK";
                              response_body := "x"; json_error := "e" |})
    [199; 200; 204; 299; 300; 404]%Z
  = [false; true; true; true; false; false].
Proof. reflexivity. Qed.

(** The falsy values of JavaScript that JSON can carry are undefined,
    null, false, 0 and the empty string; everything else, the empty
    array and the empty object included, is truthy. *)
Lemma truthy_false (v : jsval) :
  truthy v = false
  <-> v = None \/ v = Some JNull \/ v = Some (JBool false)
      \/ v = Some (JNumber 0) \/ v = Some (JString "").
Proof.
  split.
  - destruct v as [[| [] | n | s | |] |]; cbn; try done; auto.
    + rewrite negb_false_iff, Z.eqb_eq. intros ->. auto 10.
    + rewrite negb_false_iff, String.eqb_eq. intros ->. auto 10.
  - intros [-> | [-> | [-> | [-> | ->]]]]; reflexivity.
Qed.

Example truthy_values :
  List.map truthy
    [ Some (JBool true); Some (JNumber 1); Some (JNumber (-1)); Some (JString "0");
      Some (JString "false"); Some (JArray []); Some (JObject []) ]
  = [true; true; true; true; true; true; true].
Proof. reflexivity. Qed.

(** ** POST /api/preview *)

(** C4: for every request body, CreatePreviewTask issues exactly one
    upstream call: a POST to the create-task address whose body is
    the JSON text of an object with mode preview, prompt 3D object
    when prompt is omitted, art_style realistic when art_style is
    omitted, and should_remesh false exactly when the input
    should_remesh is the boolean false.  For a body as express.json()
    parses it, that text is read back as that object. *)
Theorem preview_one_call_with_defaults
    (env : Env) (up : Upstream) (ps : gmap string string) (b : json) :
  b <> JNull ->
  exists (prompt art_style : json) (should_remesh : bool) (o : FetchOutcome),
    let payload :=
      JObject [ ("mode", JString "preview");
                ("prompt", prompt);
                ("art_style", art_style);
                ("should_remesh", JBool should_remesh) ] in
    (serve (preview_handler env) up {| body := Some b; params := ps |}).2
    = [ {| call :=
             {| input := Some (JString "https://api.meshy.ai/openapi/v2/text-to-3d");
                init := Some {| method := "POST";
                                init_headers :=
                                  [ ("Content-Type", "application/json");
                                    ("Authorization", bearer env) ];
                                init_body := Some (JSON.stringify payload) |} |};
           outcome := o |} ]
    /\ (well_formed b = true -> JSON.parse (JSON.stringify payload) = Some payload)
    /\ (field b "prompt" = None -> prompt = JString "3D object")
    /\ (field b "art_style" = None -> art_style = JString "realistic")
    /\ (should_remesh = false <-> field b "should_remesh" = Some (JBool false)).
Proof.
  intros Hb. rewrite serve_preview by done.
  eexists _, _, _, _. cbv zeta. split; [reflexivity |].
  split; [intros Hwf; by apply JSON_parse_stringify, well_formed_previewBody |].
  split; [by intros -> |]. split; [by intros -> |].
  rewrite negb_false_iff. apply strict_eq_bool_true.
Qed.

Lemma preview_one_call_with_defaults_witness :
  exists (prompt art_style : json) (should_remesh : bool) (o : FetchOutcome),
    let payload :=
      JObject [ ("mode", JString "preview");
                ("prompt", prompt);
                ("art_style", art_style);
                ("should_remesh", JBool should_remesh) ] in
    (serve (preview_handler env0) (always (answer 200 (q "{'result':'t1'}")))
       (post (JObject [("should_remesh", JString "false")]))).2
    = [ {| call :=
             {| input := Some (JString "https://api.meshy.ai/openapi/v2/text-to-3d");
                init := Some {| method := "POST";
                                init_headers :=
                                  [ ("Content-Type", "application/json");
                                    ("Authorization", "Bearer msy_test") ];
                                init_body := Some (JSON.stringify payload) |} |};
           outcome := o |} ]
    /\ (well_formed (JObject [("should_remesh", JString "false")]) = true
        -> JSON.parse (JSON.stringify payload) = Some payload)
    /\ (field (JObject [("should_remesh", JString "false")]) "prompt" = None
        -> prompt = JString "3D object")
    /\ (field (JObject [("should_remesh", JString "false")]) "art_style" = None
        -> art_style = JString "realistic")
    /\ (should_remesh = false
        <-> field (JObject [("should_remesh", JString "false")]) "should_remesh"
            = Some (JBool false)).
Proof.
  apply (preview_one_call_with_defaults env0
           (always (answer 200 (q "{'result':'t1'}"))) ∅
           (JObject [("should_remesh", JString "false")])).
  discriminate.
Defined.

(** The text that the call of the witness above carries. *)
Example preview_default_body_text :
  (serve (preview_handler env0) (always (answer 200 (q "{'result':'t1'}")))
     (post (JObject [("should_remesh", JString "false")]))).2
  = [ {| call :=
           {| input := Some (JString "https://api.meshy.ai/openapi/v2/text-to-3d");
              init := Some {| method := "POST";
                              init_headers :=
                                [ ("Content-Type", "application/json");
                                  ("Authorization", "Bearer msy_test") ];
                              init_body :=
                                Some (q "{'mode':'preview','prompt':'3D object','art_style':'realistic','should_remesh':true}") |} |};
         outcome := answer 200 (q "{'result':'t1'}") |} ].
Proof. reflexivity. Qed.

(** C9: a prompt or art_style that is present with a falsy value
    (the empty string, null, false, 0) is sent upstream as the
    default: the body of the single call, a POST to the create-task
    address, is the JSON text of an object whose prompt is 3D object
    and whose art_style is realistic in that case.  The whole run
    (calls and response) is the one of a request where the field is
    absent or holds any other falsy value. *)
Theorem preview_falsy_field_is_absent
    (env : Env) (up : Upstream) (ps : gmap string string) (b : json) :
  b <> JNull ->
  (exists (prompt art_style should_remesh : json) (o : FetchOutcome),
      let payload :=
        JObject [ ("mode", JString "preview");
                  ("prompt", prompt);
                  ("art_style", art_style);
                  ("should_remesh", should_remesh) ] in
      (serve (preview_handler env) up {| body := Some b; params := ps |}).2
      = [ {| call :=
               {| input := Some (JString "https://api.meshy.ai/openapi/v2/text-to-3d");
                  init := Some {| method := "POST";
                                  init_headers :=
                                    [ ("Content-Type", "application/json");
                                      ("Authorization", bearer env) ];
                                  init_body := Some (JSON.stringify payload) |} |};
             outcome := o |} ]
      /\ (well_formed b = true -> JSON.parse (JSON.stringify payload) = Some payload)
      /\ (truthy (field b "prompt") = false -> prompt = JString "3D object")
      /\ (truthy (field b "art_style") = false -> art_style = JString "realistic"))
  /\ forall b' : json,
      b' <> JNull ->
      same_or_falsy (field b "prompt") (field b' "prompt") ->
      same_or_falsy (field b "art_style") (field b' "art_style") ->
      field b "should_remesh" = field b' "should_remesh" ->
      serve (preview_handler env) up {| body := Some b; params := ps |}
      = serve (preview_handler env) up {| body := Some b'; params := ps |}.
Proof.
  intros Hb. split.
  - rewrite serve_preview by done.
    eexists _, _, _, _. cbv zeta. split; [reflexivity |].
    split; [intros Hwf; by apply JSON_parse_stringify, well_formed_previewBody |].
    split; apply or_else_falsy.
  - intros b' Hb' Hp Ha Hr. rewrite !serve_preview by done.
    unfold previewBody.
    by rewrite (or_else_same _ _ _ Hp), (or_else_same _ _ _ Ha), Hr.
Qed.

Lemma preview_falsy_field_is_absent_witness :
  serve (preview_handler env0) (always (answer 200 (q "{'result':'t1'}")))
    (post (JObject [("prompt", JString ""); ("art_style", JNumber 0)]))
  = serve (preview_handler env0) (always (answer 200 (q "{'result':'t1'}")))
      (post (JObject [])).
Proof.
  apply (preview_falsy_field_is_absent env0
           (always (answer 200 (q "{'result':'t1'}"))) ∅
           (JObject [("prompt", JString ""); ("art_style", JNumber 0)])).
  - discriminate.
  - discriminate.
  - right. split; reflexivity.
  - right. split; reflexivity.
  - reflexivity.
Defined.

(** The text that a request with falsy fields sends upstream. *)
Example preview_falsy_body_text :
  List.map (fun e => init (call e) ≫= init_body)
    (serve (preview_handler env0) (always (answer 200 (q "{'result':'t1'}")))
       (post (JObject [("prompt", JString ""); ("art_style", JNumber 0)]))).2
  = [ Some (q "{'mode':'preview','prompt':'3D object','art_style':'realistic','should_remesh':true}") ].
Proof. reflexivity. Qed.

(** ** POST /api/refine *)

(** C5: for every request body in which preview_task_id is missing
    or the empty string, CreateRefineTask responds HTTP 400 with the
    message preview_task_id is required. and makes no upstream
    call. *)
Theorem refine_requires_preview_task_id
    (env : Env) (up : Upstream) (ps : gmap string string) (b : json) :
  b <> JNull ->
  field b "preview_task_id" = None
  \/ field b "preview_task_id" = Some (JString "") ->
  serve (refine_handler env) up {| body := Some b; params := ps |}
  = (error_response 400 "preview_task_id is required.", []).
Proof.
  intros Hb H. apply serve_refine_refused; [done |].
  by destruct H as [-> | ->].
Qed.

Lemma refine_requires_preview_task_id_witness :
  serve (refine_handler env0) (always (answer 200 (q "{'result':'t2'}")))
    (post (JObject [("preview_task_id", JString ""); ("enable_pbr", JBool true)]))
  = (error_response 400 "preview_task_id is required.", []).
Proof.
  apply (refine_requires_preview_task_id env0
           (always (answer 200 (q "{'result':'t2'}"))) ∅
           (JObject [("preview_task_id", JString ""); ("enable_pbr", JBool true)])).
  - discriminate.
  - right. reflexivity.
Defined.

(** C6: for every request body with a non-empty preview_task_id,
    CreateRefineTask makes one call, a POST to the create-task
    address whose body is the JSON text of an object with mode
    refine, that preview_task_id, and an enable_pbr that is true
    exactly when the input enable_pbr is the boolean true.  For a
    body as express.json() parses it, that text is read back as that
    object. *)
Theorem refine_enable_pbr_only_literal_true
    (env : Env) (up : Upstream) (ps : gmap string string) (b : json) :
  b <> JNull ->
  truthy (field b "preview_task_id") = true ->
  exists (id : json) (enable_pbr : bool) (o : FetchOutcome),
    let payload :=
      JObject [ ("mode", JString "refine");
                ("preview_task_id", id);
                ("enable_pbr", JBool enable_pbr) ] in
    (serve (refine_handler env) up {| body := Some b; params := ps |}).2
    = [ {| call :=
             {| input := Some (JString "https://api.meshy.ai/openapi/v2/text-to-3d");
                init := Some {| method := "POST";
                                init_headers :=
                                  [ ("Content-Type", "application/json");
                                    ("Authorization", bearer env) ];
                                init_body := Some (JSON.stringify payload) |} |};
           outcome := o |} ]
    /\ (well_formed b = true -> JSON.parse (JSON.stringify payload) = Some payload)
    /\ field b "preview_task_id" = Some id
    /\ (enable_pbr = true <-> field b "enable_pbr" = Some (JBool true)).
Proof.
  intros Hb Hid. rewrite serve_refine_call by done.
  destruct (field b "preview_task_id") as [id |] eqn:E; [| discriminate].
  eexists _, _, _. cbv zeta. split; [reflexivity |].
  split; [intros Hwf; by apply JSON_parse_stringify, (well_formed_refineBody b) |].
  split; [reflexivity |].
  apply strict_eq_bool_true.
Qed.

Lemma refine_enable_pbr_only_literal_true_witness :
  exists (id : json) (enable_pbr : bool) (o : FetchOutcome),
    let payload :=
      JObject [ ("mode", JString "refine");
                ("preview_task_id", id);
                ("enable_pbr", JBool enable_pbr) ] in
    (serve (refine_handler env0) (always (answer 200 (q "{'result':'t2'}")))
       (post (JObject [("preview_task_id", JString "t1");
                       ("enable_pbr", JString "true")]))).2
    = [ {| call :=
             {| input := Some (JString "https://api.meshy.ai/openapi/v2/text-to-3d");
                init := Some {| method := "POST";
                                init_headers :=
                                  [ ("Content-Type", "application/json");
                                    ("Authorization", "Bearer msy_test") ];
                                init_body := Some (JSON.stringify payload) |} |};
           outcome := o |} ]
    /\ (well_formed (JObject [("preview_task_id", JString "t1");
                              ("enable_pbr", JString "true")]) = true
        -> JSON.parse (JSON.stringify payload) = Some payload)
    /\ field (JObject [("preview_task_id", JString "t1");
                       ("enable_pbr", JString "true")]) "preview_task_id" = Some id
    /\ (enable_pbr = true
        <-> field (JObject [("preview_task_id", JString "t1");
                            ("enable_pbr", JString "true")]) "enable_pbr"
            = Some (JBool true)).
Proof.
  apply (refine_enable_pbr_only_literal_true env0
           (always (answer 200 (q "{'result':'t2'}"))) ∅
           (JObject [("preview_task_id", JString "t1");
                     ("enable_pbr", JString "true")])).
  - discriminate.
  - reflexivity.
Defined.

(** The text sent for the string true, and for the boolean true. *)
Example refine_body_text :
  List.map (fun e => init (call e) ≫= init_body)
    (serve (refine_handler env0) (always (answer 200 (q "{'result':'t2'}")))
       (post (JObject [("preview_task_id", JString "t1");
                       ("enable_pbr", JString "true")]))).2
  = [ Some (q "{'mode':'refine','preview_task_id':'t1','enable_pbr':false}") ]
  /\ List.map (fun e => init (call e) ≫= init_body)
       (serve (refine_handler env0) (always (answer 200 (q "{'result':'t2'}")))
          (post (JObject [("preview_task_id", JString "t1");
                          ("enable_pbr", JBool true)]))).2
     = [ Some (q "{'mode':'refine','preview_task_id':'t1','enable_pbr':true}") ].
Proof. split; reflexivity. Qed.

(** ** GET /api/task/:taskId *)

(** C2, as stated, fails: the API answers 200 with a body that has a
    space after the colon; the handler answers with the same value
    written without the space, so the bytes differ. *)
Lemma task_body_is_not_passed_byte_for_byte :
  let r := {| status := 200; statusText := "OK";
              response_body := q "{'status': 'SUCCEEDED'}";
              json_error := "" |} in
  let up := always (Resolved r) in
  up [] (task_call env0 (Some "t1")) = Resolved r
  /\ ok r = true
  /\ sent (serve (task_handler env0) up (get_task "t1")).1
     = Some (q "{'status':'SUCCEEDED'}")
  /\ sent (serve (task_handler env0) up (get_task "t1")).1
     <> Some (response_body r).
Proof.
  cbv zeta. split; [reflexivity |]. split; [reflexivity |].
  split; [vm_compute; reflexivity |].
  vm_compute. discriminate.
Qed.

(** C2, amended: when the upstream read call succeeds and its body
    is JSON text, GetTaskStatus answers HTTP 200 with the value of
    that body written again by JSON.stringify, no field of it being
    read or changed.  The text sent is read back to the same value
    as the upstream body, and it is the upstream body byte for byte
    exactly when that body is already the text JSON.stringify
    writes. *)
Theorem task_relays_the_json_value
    (env : Env) (up : Upstream) (req : Request) (r : FetchResponse) (t : json) :
  up [] (task_call env (params req !! "taskId")) = Resolved r ->
  ok r = true ->
  JSON.parse (response_body r) = Some t ->
  serve (task_handler env) up req
  = (json_response 200 t,
     [ {| call := task_call env (params req !! "taskId");
          outcome := Resolved r |} ])
  /\ sent (json_response 200 t) ≫= JSON.parse = Some t
  /\ (sent (json_response 200 t) = Some (response_body r)
      <-> response_body r = JSON.stringify t).
Proof.
  intros H Hok Hp. split; [| split].
  - rewrite serve_task, H. cbn [relayed]. by rewrite Hok, Hp.
  - cbn [json_response sent mbind option_bind].
    by apply (JSON_parse_idempotent (response_body r)).
  - cbn [json_response sent]. split; [by intros [= ->] | by intros ->].
Qed.

Lemma task_relays_the_json_value_witness :
  serve (task_handler env0)
    (always (answer 200 (q "{'status': 'SUCCEEDED', 'progress': 100}")))
    (get_task "t1")
  = (json_response 200
       (JObject [("status", JString "SUCCEEDED"); ("progress", JNumber 100)]),
     [ {| call := task_call env0 (Some "t1");
          outcome := answer 200 (q "{'status': 'SUCCEEDED', 'progress': 100}") |} ]).
Proof.
  apply (task_relays_the_json_value env0
           (always (answer 200 (q "{'status': 'SUCCEEDED', 'progress': 100}")))
           (get_task "t1") _
           (JObject [("status", JString "SUCCEEDED"); ("progress", JNumber 100)])).
  - reflexivity.
  - reflexivity.
  - vm_compute. reflexivity.
Defined.

(** ** GET /api/download/:taskId, step by step *)

Section download.
Variables (env : Env) (up : Upstream) (req : Request).

Local Abbreviation c1 := (task_call env (params req !! "taskId")).
Local Abbreviation e1 := {| call := c1; outcome := up [] c1 |}.

Lemma download_rejected (msg : string) :
  up [] c1 = Rejected msg ->
  serve (download_handler env) up req = (error_response 500 msg, [e1]).
Proof.
  intros H. start download_handler. run. by rewrite H.
Qed.

Lemma download_api_error (r : FetchResponse) :
  up [] c1 = Resolved r ->
  ok r = false ->
  serve (download_handler env) up req
  = (error_response (status r) (response_body r), [e1]).
Proof.
  intros H Hok. start download_handler. run.
  rewrite H. cbn. by rewrite Hok.
Qed.

Lemma download_not_json (r : FetchResponse) :
  up [] c1 = Resolved r ->
  ok r = true ->
  JSON.parse (response_body r) = None ->
  (serve (download_handler env) up req).2 = [e1].
Proof.
  intros H Hok Hp. start download_handler. run.
  rewrite H. cbn. rewrite Hok. cbn. by rewrite Hp.
Qed.

Lemma download_null_task (r : FetchResponse) :
  up [] c1 = Resolved r ->
  ok r = true ->
  JSON.parse (response_body r) = Some JNull ->
  (serve (download_handler env) up req).2 = [e1].
Proof.
  intros H Hok Hp. start download_handler. run.
  rewrite H. cbn. rewrite Hok. cbn. by rewrite Hp.
Qed.

Lemma download_not_succeeded (r : FetchResponse) (t : json) :
  up [] c1 = Resolved r ->
  ok r = true ->
  JSON.parse (response_body r) = Some t ->
  t <> JNull ->
  strict_eq_string (field t "status") "SUCCEEDED" = false ->
  serve (download_handler env) up req
  = (error_response 400 "Task is not complete or has failed.", [e1]).
Proof.
  intros H Hok Hp Ht Hs. start download_handler.
  rewrite ?get_optional_defined. run.
  rewrite H. cbn. rewrite Hok. cbn. rewrite Hp. cbn.
  rewrite !get_defined by done. run. by rewrite Hs.
Qed.

Lemma download_no_url (r : FetchResponse) (t : json) :
  up [] c1 = Resolved r ->
  ok r = true ->
  JSON.parse (response_body r) = Some t ->
  field t "status" = Some (JString "SUCCEEDED") ->
  truthy (optional_field (field t "model_urls") "glb") = false ->
  serve (download_handler env) up req
  = (error_response 404 "GLB URL not found.", [e1]).
Proof.
  intros H Hok Hp Hs Hg.
  assert (Ht : t <> JNull) by (intros ->; discriminate).
  start download_handler. run.
  rewrite H. cbn. rewrite Hok. cbn. rewrite Hp. cbn.
  rewrite !get_defined by done. run. rewrite Hs. cbn.
  rewrite get_optional_defined. run. by rewrite Hg.
Qed.

Lemma download_fetches_model (r : FetchResponse) (t : json) :
  up [] c1 = Resolved r ->
  ok r = true ->
  JSON.parse (response_body r) = Some t ->
  field t "status" = Some (JString "SUCCEEDED") ->
  truthy (optional_field (field t "model_urls") "glb") = true ->
  let c2 := glb_call (optional_field (field t "model_urls") "glb") in
  let e2 := {| call := c2; outcome := up [e1] c2 |} in
  serve (download_handler env) up req
  = (match up [e1] c2 with
     | Rejected msg => error_response 500 msg
     | Resolved r2 =>
         if ok r2 then
           if valid_header_value (content_disposition (params req !! "taskId")) then
             {| statusCode := 200;
                headers :=
                  <["Content-Disposition" := content_disposition (params req !! "taskId")]>
                    (<["Content-Type" := "model/gltf-binary"]> ∅);
                sent := Some (response_body r2) |}
           else header_rejected "Content-Disposition"
         else error_response 500 "Failed to download GLB file."
     end, [e1; e2]).
Proof.
  intros H Hok Hp Hs Hg c2 e2.
  assert (Ht : t <> JNull) by (intros ->; discriminate).
  subst e2. rewrite H.
  start download_handler. run.
  rewrite H. cbn. rewrite Hok. cbn. rewrite Hp. cbn.
  rewrite !get_defined by done. run. rewrite Hs. cbn.
  rewrite get_optional_defined. run. rewrite Hg. cbn. fold c2.
  destruct (up _ c2) as [msg | r2]; cbn; [done |].
  destruct (ok r2); cbn; [| done].
  destruct (valid_header_value _); cbn; reflexivity.
Qed.

Lemma download_first_exchange :
  exists rest : list Exchange,
    (serve (download_handler env) up req).2 = e1 :: rest.
Proof.
  destruct (up [] c1) as [msg | r] eqn:H.
  { rewrite (download_rejected msg H), H. by eexists. }
  destruct (ok r) eqn:Hok.
  2: { rewrite (download_api_error r H Hok), H. by eexists. }
  destruct (JSON.parse (response_body r)) as [t |] eqn:Hp.
  2: { rewrite (download_not_json r H Hok Hp), H. by eexists. }
  destruct (is_null_dec t) as [-> | Ht].
  { rewrite (download_null_task r H Hok Hp), H. by eexists. }
  destruct (strict_eq_string (field t "status") "SUCCEEDED") eqn:Hs.
  2: { rewrite (download_not_succeeded r t H Hok Hp Ht Hs), H. by eexists. }
  apply strict_eq_string_true in Hs.
  destruct (truthy (optional_field (field t "model_urls") "glb")) eqn:Hg.
  - rewrite (download_fetches_model r t H Hok Hp Hs Hg), H. by eexists.
  - rewrite (download_no_url r t H Hok Hp Hs Hg), H. by eexists.
Qed.
End download.

(** C3: when the status fetch of DownloadModel succeeds and returns
    a task whose status is not the string SUCCEEDED, the response is
    HTTP 400 with the message Task is not complete or has failed.,
    and the status fetch is the only upstream call. *)
Theorem download_refuses_unfinished_task
    (env : Env) (up : Upstream) (req : Request) (r : FetchResponse) (t : json) :
  up [] (task_call env (params req !! "taskId")) = Resolved r ->
  ok r = true ->
  JSON.parse (response_body r) = Some t ->
  t <> JNull ->
  field t "status" <> Some (JString "SUCCEEDED") ->
  serve (download_handler env) up req
  = (error_response 400 "Task is not complete or has failed.",
     [ {| call := task_call env (params req !! "taskId");
          outcome := Resolved r |} ]).
Proof.
  intros H Hok Hp Ht Hs.
  rewrite (download_not_succeeded env up req r t H Hok Hp Ht), H; [done |].
  destruct (strict_eq_string _ _) eqn:E; [| done].
  by apply strict_eq_string_true in E.
Qed.

Lemma download_refuses_unfinished_task_witness :
  serve (download_handler env0)
    (always (answer 200 (q "{'status': 'IN_PROGRESS', 'progress': 40}")))
    (get_task "t2")
  = (error_response 400 "Task is not complete or has failed.",
     [ {| call := task_call env0 (Some "t2");
          outcome := answer 200 (q "{'status': 'IN_PROGRESS', 'progress': 40}") |} ]).
Proof.
  apply (download_refuses_unfinished_task env0
           (always (answer 200 (q "{'status': 'IN_PROGRESS', 'progress': 40}")))
           (get_task "t2") _
           (JObject [("status", JString "IN_PROGRESS"); ("progress", JNumber 40)])).
  - reflexivity.
  - reflexivity.
  - vm_compute. reflexivity.
  - discriminate.
  - discriminate.
Defined.

(** C7: when the status fetch of DownloadModel succeeds with status
    SUCCEEDED and the task object has no model_urls.glb, the response
    is HTTP 404 with the message GLB URL not found., and no binary
    fetch is made. *)
Theorem download_without_glb_url
    (env : Env) (up : Upstream) (req : Request) (r : FetchResponse) (t : json) :
  up [] (task_call env (params req !! "taskId")) = Resolved r ->
  ok r = true ->
  JSON.parse (response_body r) = Some t ->
  field t "status" = Some (JString "SUCCEEDED") ->
  optional_field (field t "model_urls") "glb" = None ->
  serve (download_handler env) up req
  = (error_response 404 "GLB URL not found.",
     [ {| call := task_call env (params req !! "taskId");
          outcome := Resolved r |} ]).
Proof.
  intros H Hok Hp Hs Hg.
  rewrite (download_no_url env up req r t H Hok Hp Hs), H; [done |].
  by rewrite Hg.
Qed.

Lemma download_without_glb_url_witness :
  serve (download_handler env0)
    (always (answer 200 (q "{'status':'SUCCEEDED','model_urls':{'fbx':'https://cdn/m.fbx'}}")))
    (get_task "t2")
  = (error_response 404 "GLB URL not found.",
     [ {| call := task_call env0 (Some "t2");
          outcome :=
            answer 200 (q "{'status':'SUCCEEDED','model_urls':{'fbx':'https://cdn/m.fbx'}}") |} ]).
Proof.
  apply (download_without_glb_url env0
           (always (answer 200 (q "{'status':'SUCCEEDED','model_urls':{'fbx':'https://cdn/m.fbx'}}")))
           (get_task "t2") _
           (JObject [("status", JString "SUCCEEDED");
                     ("model_urls", JObject [("fbx", JString "https://cdn/m.fbx")])])).
  - reflexivity.
  - reflexivity.
  - vm_compute. reflexivity.
  - reflexivity.
  - reflexivity.
Defined.






(** ** The four operations together *)

Lemma relayed_error (r : FetchResponse) :
  ok r = false ->
  relayed (Resolved r) = error_response (status r) (response_body r).
Proof. intros H. cbn. by rewrite H. Qed.

Lemma preview_relays (env : Env) : relays_api_errors (preview_handler env).
Proof.
  intros up [b ps] c r rest Htr Hok.
  destruct b as [b |]; [destruct (is_null_dec b) as [-> | Hb] |];
    [discriminate Htr | | discriminate Htr].
  rewrite serve_preview in Htr |- * by done. cbn in Htr.
  injection Htr as <- Ho _. by rewrite Ho, relayed_error.
Qed.

Lemma refine_relays (env : Env) : relays_api_errors (refine_handler env).
Proof.
  intros up [b ps] c r rest Htr Hok.
  destruct b as [b |]; [destruct (is_null_dec b) as [-> | Hb] |];
    [discriminate Htr | | discriminate Htr].
  destruct (truthy (field b "preview_task_id")) eqn:Hid.
  - rewrite serve_refine_call in Htr |- * by done. cbn in Htr.
    injection Htr as <- Ho _. by rewrite Ho, relayed_error.
  - rewrite serve_refine_refused in Htr by done. discriminate Htr.
Qed.

Lemma task_relays (env : Env) : relays_api_errors (task_handler env).
Proof.
  intros up req c r rest Htr Hok.
  rewrite serve_task in Htr |- *. cbn in Htr.
  injection Htr as <- Ho _. by rewrite Ho, relayed_error.
Qed.

Lemma download_relays (env : Env) : relays_api_errors (download_handler env).
Proof.
  intros up req c r rest Htr Hok.
  destruct (download_first_exchange env up req) as [rest' E].
  rewrite E in Htr. injection Htr as <- Ho _.
  by rewrite (download_api_error env up req r Ho Hok), Ho.
Qed.

Lemma error_payload_verbatim (code : Z) (msg : string) :
  sent (error_response code msg) ≫= JSON.parse
  = Some (JObject [("error", JString msg)]).
Proof. cbn [error_response json_response sent mbind option_bind]. by apply JSON_parse_stringify. Qed.

(** C1: each of the four operations, whenever the API answers its
    call with a status outside 200-299, answers the caller with that
    same status and with the body text of the API's answer, as it
    is, as the error of the payload: the payload is the JSON text of
    an object whose only property, error, is that text.  No further
    call is made. *)
Theorem api_errors_are_relayed (env : Env) :
  relays_api_errors (preview_handler env)
  /\ relays_api_errors (refine_handler env)
  /\ relays_api_errors (task_handler env)
  /\ relays_api_errors (download_handler env)
  /\ forall r : FetchResponse,
       statusCode (error_response (status r) (response_body r)) = status r
       /\ sent (error_response (status r) (response_body r)) ≫= JSON.parse
          = Some (JObject [("error", JString (response_body r))]).
Proof.
  split; [apply preview_relays |].
  split; [apply refine_relays |].
  split; [apply task_relays |].
  split; [apply download_relays |].
  intros r. split; [reflexivity | apply error_payload_verbatim].
Qed.

Lemma api_errors_are_relayed_witness :
  let up := always (answer 404 (q "{'message':'Task not found'}")) in
  let relayed_404 (c : FetchCall) :=
    (error_response 404 (q "{'message':'Task not found'}"),
     [ {| call := c; outcome := answer 404 (q "{'message':'Task not found'}") |} ]) in
  serve (preview_handler env0) up (post (JObject [("prompt", JString "a chair")]))
  = relayed_404 (create_call env0
                   (previewBody (Some (JString "a chair")) None None))
  /\ serve (refine_handler env0) up (post (JObject [("preview_task_id", JString "t1")]))
     = relayed_404 (create_call env0 (refineBody (Some (JString "t1")) None))
  /\ serve (task_handler env0) up (get_task "t9")
     = relayed_404 (task_call env0 (Some "t9"))
  /\ serve (download_handler env0) up (get_task "t9")
     = relayed_404 (task_call env0 (Some "t9")).
Proof.
  intros up relayed_404.
  destruct (api_errors_are_relayed env0) as (Hp & Hr & Ht & Hd & _).
  split; [| split; [| split]].
  - apply (Hp up _ _ {| status := 404; statusText := "";
                         response_body := q "{'message':'Task not found'}";
                         json_error := "invalid json response body" |} []);
      reflexivity.
  - apply (Hr up _ _ {| status := 404; statusText := "";
                         response_body := q "{'message':'Task not found'}";
                         json_error := "invalid json response body" |} []);
      reflexivity.
  - apply (Ht up _ _ {| status := 404; statusText := "";
                         response_body := q "{'message':'Task not found'}";
                         json_error := "invalid json response body" |} []);
      reflexivity.
  - apply (Hd up _ _ {| status := 404; statusText := "";
                         response_body := q "{'message':'Task not found'}";
                         json_error := "invalid json response body" |} []);
      reflexivity.
Defined.

(** C10: two request bodies that agree on prompt, art_style and
    should_remesh give the same run of CreatePreviewTask, and two
    that agree on preview_task_id and enable_pbr give the same run of
    CreateRefineTask: the same upstream calls with the same bodies,
    and the same response.  Every upstream call of CreatePreviewTask
    is a POST to the create-task address whose body is the JSON text
    of an object with exactly the properties mode, prompt, art_style,
    should_remesh, and every one of CreateRefineTask a POST whose
    body is the JSON text of an object with exactly mode,
    preview_task_id, enable_pbr; for a body as express.json() parses
    it, the text is read back as that object. *)
Theorem upstream_body_has_only_the_named_fields
    (env : Env) (up : Upstream) (ps : gmap string string) (b b' : json) :
  b <> JNull ->
  b' <> JNull ->
  ((field b "prompt" = field b' "prompt" ->
    field b "art_style" = field b' "art_style" ->
    field b "should_remesh" = field b' "should_remesh" ->
    serve (preview_handler env) up {| body := Some b; params := ps |}
    = serve (preview_handler env) up {| body := Some b'; params := ps |})
   /\ Forall
        (fun e => exists payload : json,
           call e
           = {| input := Some (JString "https://api.meshy.ai/openapi/v2/text-to-3d");
                init := Some {| method := "POST";
                                init_headers :=
                                  [ ("Content-Type", "application/json");
                                    ("Authorization", bearer env) ];
                                init_body := Some (JSON.stringify payload) |} |}
           /\ keys payload = ["mode"; "prompt"; "art_style"; "should_remesh"]
           /\ (well_formed b = true
               -> JSON.parse (JSON.stringify payload) = Some payload))
        (serve (preview_handler env) up {| body := Some b; params := ps |}).2)
  /\ ((field b "preview_task_id" = field b' "preview_task_id" ->
       field b "enable_pbr" = field b' "enable_pbr" ->
       serve (refine_handler env) up {| body := Some b; params := ps |}
       = serve (refine_handler env) up {| body := Some b'; params := ps |})
      /\ Forall
           (fun e => exists payload : json,
              call e
              = {| input := Some (JString "https://api.meshy.ai/openapi/v2/text-to-3d");
                   init := Some {| method := "POST";
                                   init_headers :=
                                     [ ("Content-Type", "application/json");
                                       ("Authorization", bearer env) ];
                                   init_body := Some (JSON.stringify payload) |} |}
              /\ keys payload = ["mode"; "preview_task_id"; "enable_pbr"]
              /\ (well_formed b = true
                  -> JSON.parse (JSON.stringify payload) = Some payload))
           (serve (refine_handler env) up {| body := Some b; params := ps |}).2).
Proof.
  intros Hb Hb'. split; split.
  - intros Hp Ha Hr. rewrite !serve_preview by done. by rewrite Hp, Ha, Hr.
  - rewrite serve_preview by done. cbn [snd].
    apply Forall_cons. split; [| apply Forall_nil; exact I].
    eexists. split; [reflexivity |]. split; [reflexivity |].
    intros Hwf. by apply JSON_parse_stringify, well_formed_previewBody.
  - intros Hid He.
    destruct (truthy (field b "preview_task_id")) eqn:Ht.
    + rewrite !serve_refine_call by (done || by rewrite <- Hid).
      by rewrite Hid, He.
    + rewrite !serve_refine_refused by (done || by rewrite <- Hid). done.
  - destruct (truthy (field b "preview_task_id")) eqn:Ht.
    + rewrite serve_refine_call by done. cbn [snd].
      apply Forall_cons. split; [| apply Forall_nil; exact I].
      destruct (field b "preview_task_id") as [id |] eqn:E; [| discriminate].
      eexists. split; [reflexivity |]. split; [reflexivity |].
      intros Hwf. by apply JSON_parse_stringify, (well_formed_refineBody b).
    + rewrite serve_refine_refused by done. apply Forall_nil. exact I.
Qed.

Lemma upstream_body_has_only_the_named_fields_witness :
  serve (preview_handler env0) (always (answer 200 (q "{'result':'t1'}")))
    (post (JObject [("prompt", JString "a chair"); ("mode", JString "refine");
                    ("texture_prompt", JString "oak")]))
  = serve (preview_handler env0) (always (answer 200 (q "{'result':'t1'}")))
      (post (JObject [("prompt", JString "a chair")])).
Proof.
  apply (upstream_body_has_only_the_named_fields env0
           (always (answer 200 (q "{'result':'t1'}"))) ∅
           (JObject [("prompt", JString "a chair"); ("mode", JString "refine");
                     ("texture_prompt", JString "oak")])
           (JObject [("prompt", JString "a chair")])).
  - discriminate.
  - discriminate.
  - reflexivity.
  - reflexivity.
  - reflexivity.
Defined.

(** The text sent for a body with fields that are not named: they are
    not in it. *)
Example extra_fields_are_dropped :
  List.map (fun e => init (call e) ≫= init_body)
    (serve (preview_handler env0) (always (answer 200 (q "{'result':'t1'}")))
       (post (JObject [("prompt", JString "a chair"); ("mode", JString "refine");
                       ("texture_prompt", JString "oak")]))).2
  = [ Some (q "{'mode':'preview','prompt':'a chair','art_style':'realistic','should_remesh':true}") ].
Proof. reflexivity. Qed.

(** ** Every run of the handlers *)

(** The run of POST /api/preview, whatever the request. *)
Lemma serve_preview_any (env : Env) (up : Upstream) (req : Request) :
  (exists msg, serve (preview_handler env) up req = (error_response 500 msg, [])
               /\ nullish (body req) = true)
  \/ (exists b, body req = Some b /\ b <> JNull
      /\ let c := create_call env
                    (previewBody (field b "prompt") (field b "art_style")
                       (field b "should_remesh")) in
         serve (preview_handler env) up req
         = (relayed (up [] c), [ {| call := c; outcome := up [] c |} ])).
Proof.
  destruct req as [[b |] ps]; [destruct (is_null_dec b) as [-> | Hb] |].
  - left. by eexists.
  - right. exists b. split; [done |]. split; [done |]. by apply serve_preview.
  - left. by eexists.
Qed.

(** The run of POST /api/refine, whatever the request. *)
Lemma serve_refine_any (env : Env) (up : Upstream) (req : Request) :
  (exists msg, serve (refine_handler env) up req = (error_response 500 msg, [])
               /\ nullish (body req) = true)
  \/ (exists b, body req = Some b /\ b <> JNull
      /\ truthy (field b "preview_task_id") = false
      /\ serve (refine_handler env) up req
         = (error_response 400 "preview_task_id is required.", []))
  \/ (exists b, body req = Some b /\ b <> JNull
      /\ truthy (field b "preview_task_id") = true
      /\ let c := create_call env
                    (refineBody (field b "preview_task_id") (field b "enable_pbr")) in
         serve (refine_handler env) up req
         = (relayed (up [] c), [ {| call := c; outcome := up [] c |} ])).
Proof.
  destruct req as [[b |] ps]; [destruct (is_null_dec b) as [-> | Hb] |].
  - left. by eexists.
  - right. destruct (truthy (field b "preview_task_id")) eqn:Hid.
    + right. exists b. repeat (split; [done |]). by apply serve_refine_call.
    + left. exists b. repeat (split; [done |]). by apply serve_refine_refused.
  - left. by eexists.
Qed.

(** The run of GET /api/download/:taskId, whatever the request. *)
Lemma serve_download (env : Env) (up : Upstream) (req : Request) :
  serve (download_handler env) up req = downloaded env up (params req !! "taskId").
Proof.
  unfold downloaded.
  destruct (up [] (task_call env (params req !! "taskId"))) as [msg | r] eqn:H.
  { by rewrite (download_rejected env up req msg H), H. }
  destruct (ok r) eqn:Hok.
  2: { by rewrite (download_api_error env up req r H Hok), H. }
  destruct (JSON.parse (response_body r)) as [t |] eqn:Hp.
  2: { start download_handler. run. rewrite H. cbn. rewrite Hok. cbn. by rewrite Hp. }
  destruct (is_null_dec t) as [-> | Ht].
  { start download_handler. run. rewrite H. cbn. rewrite Hok. cbn. by rewrite Hp. }
  destruct (strict_eq_string (field t "status") "SUCCEEDED") eqn:Hs.
  2: { rewrite (download_not_succeeded env up req r t H Hok Hp Ht Hs), H.
       by destruct t. }
  pose proof Hs as Hs'. apply strict_eq_string_true in Hs'.
  destruct (truthy (optional_field (field t "model_urls") "glb")) eqn:Hg.
  - rewrite (download_fetches_model env up req r t H Hok Hp Hs' Hg), H.
    destruct t; try done.
    destruct (up [_] _) as [msg | r2]; [done |].
    destruct (ok r2); [| reflexivity].
    destruct (valid_header_value _); reflexivity.
  - rewrite (download_no_url env up req r t H Hok Hp Hs' Hg), H.
    by destruct t.
Qed.

(** ** Failures of the transport *)

Lemma relayed_rejection (msg : string) :
  relayed (Rejected msg) = error_response 500 msg.
Proof. reflexivity. Qed.

(** X1: in each of the four handlers, when the call to the API is
    rejected (network or transport failure), the catch clause
    answers HTTP 500 with the message of the error as payload, and
    no other call is made. *)
Theorem transport_failures_are_reported (env : Env) :
  reports_rejections (preview_handler env)
  /\ reports_rejections (refine_handler env)
  /\ reports_rejections (task_handler env)
  /\ reports_rejections (download_handler env).
Proof.
  split; [| split; [| split]]; intros up req c msg rest Htr.
  - destruct (serve_preview_any env up req)
      as [(m & E & _) | (b & _ & _ & E)]; rewrite E in Htr |- *; [done |].
    cbn in Htr. injection Htr as <- Ho _. by rewrite Ho.
  - destruct (serve_refine_any env up req)
      as [(m & E & _) | [(b & _ & _ & _ & E) | (b & _ & _ & _ & E)]];
      rewrite E in Htr |- *; [done | done |].
    cbn in Htr. injection Htr as <- Ho _. by rewrite Ho.
  - rewrite serve_task in Htr |- *. cbn in Htr.
    injection Htr as <- Ho _. by rewrite Ho.
  - rewrite serve_download in Htr |- *. unfold downloaded in Htr |- *.
    destruct (up [] _) as [m | r] eqn:H.
    + cbn in Htr. by injection Htr as <- <- _.
    + repeat case_match; cbn in Htr; by injection Htr.
Qed.

Lemma transport_failures_are_reported_witness :
  let up := always (Rejected "request to https://api.meshy.ai failed, reason: ECONNRESET") in
  serve (task_handler env0) up (get_task "t1")
  = (error_response 500 "request to https://api.meshy.ai failed, reason: ECONNRESET",
     [ {| call := task_call env0 (Some "t1");
          outcome := Rejected "request to https://api.meshy.ai failed, reason: ECONNRESET" |} ])
  /\ serve (preview_handler env0) up (post (JObject []))
     = (error_response 500 "request to https://api.meshy.ai failed, reason: ECONNRESET",
        [ {| call := create_call env0 (previewBody None None None);
             outcome := Rejected "request to https://api.meshy.ai failed, reason: ECONNRESET" |} ]).
Proof.
  intros up.
  destruct (transport_failures_are_reported env0) as (Hp & _ & Ht & _).
  split.
  - apply (Ht up _ _ _ []). reflexivity.
  - apply (Hp up _ _ _ []). reflexivity.
Defined.

(** X2: when the status fetch of the download succeeds with a
    SUCCEEDED task that has a glb URL and the fetch of the binary is
    rejected, the response is HTTP 500 with the message of that
    error; both calls were made and no attachment header is set. *)
Theorem download_model_fetch_rejected
    (env : Env) (up : Upstream) (req : Request)
    (r : FetchResponse) (t : json) (msg : string) :
  up [] (task_call env (params req !! "taskId")) = Resolved r ->
  ok r = true ->
  JSON.parse (response_body r) = Some t ->
  field t "status" = Some (JString "SUCCEEDED") ->
  truthy (optional_field (field t "model_urls") "glb") = true ->
  up [ {| call := task_call env (params req !! "taskId"); outcome := Resolved r |} ]
     (glb_call (optional_field (field t "model_urls") "glb")) = Rejected msg ->
  serve (download_handler env) up req
  = (error_response 500 msg,
     [ {| call := task_call env (params req !! "taskId"); outcome := Resolved r |};
       {| call := glb_call (optional_field (field t "model_urls") "glb");
          outcome := Rejected msg |} ])
  /\ headers (serve (download_handler env) up req).1 !! "Content-Disposition" = None.
Proof.
  intros H Hok Hp Hs Hg H2.
  rewrite (download_fetches_model env up req r t H Hok Hp Hs Hg), H, H2.
  split; reflexivity.
Qed.

Lemma download_model_fetch_rejected_witness :
  serve (download_handler env0)
    (first_then
       (answer 200 (q "{'status':'SUCCEEDED','model_urls':{'glb':'https://cdn/m.glb'}}"))
       (Rejected "socket hang up"))
    (get_task "t2")
  = (error_response 500 "socket hang up",
     [ {| call := task_call env0 (Some "t2");
          outcome :=
            answer 200 (q "{'status':'SUCCEEDED','model_urls':{'glb':'https://cdn/m.glb'}}") |};
       {| call := glb_call (Some (JString "https://cdn/m.glb"));
          outcome := Rejected "socket hang up" |} ]).
Proof.
  refine (proj1
    (download_model_fetch_rejected env0
       (first_then
          (answer 200 (q "{'status':'SUCCEEDED','model_urls':{'glb':'https://cdn/m.glb'}}"))
          (Rejected "socket hang up"))
       (get_task "t2") _
       (JObject [("status", JString "SUCCEEDED");
                 ("model_urls", JObject [("glb", JString "https://cdn/m.glb")])])
       "socket hang up" _ _ _ _ _ _)).
  - reflexivity.
  - reflexivity.
  - vm_compute. reflexivity.
  - reflexivity.
  - reflexivity.
  - reflexivity.
Defined.

(** ** The create-task operations on success *)

(** X3: when the API answers the create-task call of
    CreatePreviewTask or CreateRefineTask with a status in 200-299
    and a JSON body, the response is HTTP 200 with the value of that
    body written by JSON.stringify, and that call is the only one. *)
Theorem create_relays_the_json_value
    (env : Env) (up : Upstream) (ps : gmap string string) (b : json)
    (r : FetchResponse) (t : json) :
  b <> JNull ->
  ok r = true ->
  JSON.parse (response_body r) = Some t ->
  (let c := create_call env
              (previewBody (field b "prompt") (field b "art_style")
                 (field b "should_remesh")) in
   up [] c = Resolved r ->
   serve (preview_handler env) up {| body := Some b; params := ps |}
   = (json_response 200 t, [ {| call := c; outcome := Resolved r |} ]))
  /\ (let c := create_call env
                 (refineBody (field b "preview_task_id") (field b "enable_pbr")) in
      truthy (field b "preview_task_id") = true ->
      up [] c = Resolved r ->
      serve (refine_handler env) up {| body := Some b; params := ps |}
      = (json_response 200 t, [ {| call := c; outcome := Resolved r |} ]))
  /\ sent (json_response 200 t) ≫= JSON.parse = Some t.
Proof.
  intros Hb Hok Hp. split; [| split].
  - intros c H. rewrite serve_preview by done. fold c. rewrite H.
    cbn [relayed]. by rewrite Hok, Hp.
  - intros c Hid H. rewrite serve_refine_call by done. fold c. rewrite H.
    cbn [relayed]. by rewrite Hok, Hp.
  - cbn [json_response sent mbind option_bind].
    by apply (JSON_parse_idempotent (response_body r)).
Qed.

Lemma create_relays_the_json_value_witness :
  serve (preview_handler env0) (always (answer 200 (q "{ 'result': 't1' }")))
    (post (JObject [("prompt", JString "a chair")]))
  = (json_response 200 (JObject [("result", JString "t1")]),
     [ {| call := create_call env0
                    (previewBody (Some (JString "a chair")) None None);
          outcome := answer 200 (q "{ 'result': 't1' }") |} ]).
Proof.
  refine (proj1
    (create_relays_the_json_value env0
       (always (answer 200 (q "{ 'result': 't1' }"))) ∅
       (JObject [("prompt", JString "a chair")])
       {| status := 200; statusText := ""; response_body := q "{ 'result': 't1' }";
          json_error := "invalid json response body" |}
       (JObject [("result", JString "t1")]) _ _ _) _).
  - discriminate.
  - reflexivity.
  - vm_compute. reflexivity.
  - reflexivity.
Defined.

(** ** What every run has in common *)

(** X4: whatever the request and the answers of the remote services,
    CreatePreviewTask, CreateRefineTask and GetTaskStatus make at
    most one upstream call and DownloadModel at most two. *)
Theorem upstream_calls_are_bounded (env : Env) (up : Upstream) (req : Request) :
  (length (serve (preview_handler env) up req).2 <= 1)%nat
  /\ (length (serve (refine_handler env) up req).2 <= 1)%nat
  /\ (length (serve (task_handler env) up req).2 <= 1)%nat
  /\ (length (serve (download_handler env) up req).2 <= 2)%nat.
Proof.
  split; [| split; [| split]].
  - destruct (serve_preview_any env up req)
      as [(m & E & _) | (b & _ & _ & E)]; rewrite E; cbn; lia.
  - destruct (serve_refine_any env up req)
      as [(m & E & _) | [(b & _ & _ & _ & E) | (b & _ & _ & _ & E)]];
      rewrite E; cbn; lia.
  - rewrite serve_task. cbn. lia.
  - rewrite serve_download. unfold downloaded.
    repeat case_match; cbn; lia.
Qed.

Lemma authorized_create_call (env : Env) (payload : json) :
  authorized env (create_call env payload).
Proof.
  exists "". eexists. split; [reflexivity |]. split; [reflexivity |].
  right. by left.
Qed.

Lemma authorized_task_call (env : Env) (taskId : option string) :
  authorized env (task_call env taskId).
Proof.
  exists ("/" ++ template taskId). eexists.
  split; [reflexivity |]. split; [reflexivity |]. by left.
Qed.

(** X5: the bearer token goes to the API and nowhere else.  Every
    call of CreatePreviewTask, CreateRefineTask and GetTaskStatus is
    addressed to the API URL and carries the Authorization header;
    DownloadModel starts with such a call, and whatever call follows
    (the fetch of the URL found in the task object) is made with no
    header at all. *)
Theorem credential_stays_with_the_api (env : Env) (up : Upstream) (req : Request) :
  Forall (fun e => authorized env (call e)) (serve (preview_handler env) up req).2
  /\ Forall (fun e => authorized env (call e)) (serve (refine_handler env) up req).2
  /\ Forall (fun e => authorized env (call e)) (serve (task_handler env) up req).2
  /\ exists e1 rest,
       (serve (download_handler env) up req).2 = e1 :: rest
       /\ authorized env (call e1)
       /\ Forall (fun e => anonymous (call e)) rest.
Proof.
  split; [| split; [| split]].
  - destruct (serve_preview_any env up req)
      as [(m & E & _) | (b & _ & _ & E)]; rewrite E; cbn.
    + apply Forall_nil. exact I.
    + apply Forall_cons. split; [apply authorized_create_call |].
      apply Forall_nil. exact I.
  - destruct (serve_refine_any env up req)
      as [(m & E & _) | [(b & _ & _ & _ & E) | (b & _ & _ & _ & E)]];
      rewrite E; cbn; try (apply Forall_nil; exact I).
    apply Forall_cons. split; [apply authorized_create_call |].
    apply Forall_nil. exact I.
  - rewrite serve_task. cbn.
    apply Forall_cons. split; [apply authorized_task_call |].
    apply Forall_nil. exact I.
  - rewrite serve_download. unfold downloaded.
    repeat case_match; cbn; eexists _, _;
      (split; [reflexivity |]); (split; [apply authorized_task_call |]);
      repeat (apply Forall_cons; split; [reflexivity |]);
      apply Forall_nil; exact I.
Qed.

Lemma answers_json_error (code : Z) (msg : string) :
  answers_json (error_response code msg).
Proof.
  exists (JObject [("error", JString msg)]). split; [reflexivity |].
  by apply JSON_parse_stringify.
Qed.

Lemma answers_json_header_rejected (name : string) :
  answers_json (header_rejected name).
Proof.
  eexists. split; [reflexivity |]. by apply JSON_parse_stringify.
Qed.

Lemma answers_json_relayed (o : FetchOutcome) : answers_json (relayed o).
Proof.
  destruct o as [msg | r]; cbn [relayed]; [apply answers_json_error |].
  destruct (ok r); [| apply answers_json_error].
  destruct (JSON.parse (response_body r)) as [t |] eqn:Hp;
    [| apply answers_json_error].
  exists t. split; [reflexivity |]. by apply (JSON_parse_idempotent (response_body r)).
Qed.

(** X6: every handler answers every request.  The body that
    CreatePreviewTask, CreateRefineTask and GetTaskStatus send is
    always a JSON text, one that JSON.parse reads back, on the
    success path as on every error path; DownloadModel sends either
    such a text or the streamed model. *)
Theorem every_answer_is_json_or_the_model
    (env : Env) (up : Upstream) (req : Request) :
  answers_json (serve (preview_handler env) up req).1
  /\ answers_json (serve (refine_handler env) up req).1
  /\ answers_json (serve (task_handler env) up req).1
  /\ (answers_json (serve (download_handler env) up req).1
      \/ exists modelResponse,
           (serve (download_handler env) up req).1
           = streamed (params req !! "taskId") modelResponse).
Proof.
  split; [| split; [| split]].
  - destruct (serve_preview_any env up req)
      as [(m & E & _) | (b & _ & _ & E)]; rewrite E; cbn [fst].
    + apply answers_json_error.
    + apply answers_json_relayed.
  - destruct (serve_refine_any env up req)
      as [(m & E & _) | [(b & _ & _ & _ & E) | (b & _ & _ & _ & E)]];
      rewrite E; cbn [fst]; (apply answers_json_error || apply answers_json_relayed).
  - rewrite serve_task. apply answers_json_relayed.
  - rewrite serve_download. unfold downloaded.
    repeat case_match; cbn [fst];
      ((left; apply answers_json_error)
       || (left; apply answers_json_header_rejected)
       || (right; by eexists)).
Qed.

Lemma relayed_200 (o : FetchOutcome) :
  statusCode (relayed o) = 200 ->
  exists r t, o = Resolved r /\ ok r = true
              /\ JSON.parse (response_body r) = Some t
              /\ relayed o = json_response 200 t.
Proof.
  destruct o as [msg | r]; cbn [relayed]; [done |].
  destruct (ok r) eqn:Hok.
  - destruct (JSON.parse (response_body r)) as [t |] eqn:Hp; [| done].
    intros _. by exists r, t.
  - cbn. intros H. unfold ok in Hok. rewrite H in Hok. done.
Qed.

(** X7: CreatePreviewTask, CreateRefineTask and GetTaskStatus never
    make up a success: when the response has status 200, exactly one
    upstream call was made, the API answered it with a status in
    200-299 and a JSON body, and the response is that value. *)
Theorem success_comes_from_upstream
    (env : Env) (up : Upstream) (req : Request) (handler : Request -> M unit) :
  handler = preview_handler env \/ handler = refine_handler env
  \/ handler = task_handler env ->
  statusCode (serve handler up req).1 = 200 ->
  exists c r t,
    serve handler up req = (json_response 200 t, [ {| call := c; outcome := Resolved r |} ])
    /\ ok r = true
    /\ JSON.parse (response_body r) = Some t.
Proof.
  intros [-> | [-> | ->]].
  - destruct (serve_preview_any env up req)
      as [(m & E & _) | (b & _ & _ & E)]; rewrite E; cbn [fst]; [done |].
    intros (r & t & Ho & Hok & Hp & Hr)%relayed_200.
    eexists _, r, t. by rewrite Hr, Ho.
  - destruct (serve_refine_any env up req)
      as [(m & E & _) | [(b & _ & _ & _ & E) | (b & _ & _ & _ & E)]];
      rewrite E; cbn [fst]; [done | done |].
    intros (r & t & Ho & Hok & Hp & Hr)%relayed_200.
    eexists _, r, t. by rewrite Hr, Ho.
  - rewrite serve_task. cbn [fst].
    intros (r & t & Ho & Hok & Hp & Hr)%relayed_200.
    eexists _, r, t. by rewrite Hr, Ho.
Qed.

Lemma success_comes_from_upstream_witness :
  exists c r t,
    serve (task_handler env0) (always (answer 200 (q "{'status':'PENDING'}")))
      (get_task "t1")
    = (json_response 200 t, [ {| call := c; outcome := Resolved r |} ])
    /\ ok r = true
    /\ JSON.parse (response_body r) = Some t.
Proof.
  apply (success_comes_from_upstream env0
           (always (answer 200 (q "{'status':'PENDING'}"))) (get_task "t1")
           (task_handler env0)).
  - right. right. reflexivity.
  - reflexivity.
Defined.

(** ** More of CreatePreviewTask and CreateRefineTask *)

(** X8: CreateRefineTask refuses a request exactly when its
    preview_task_id is falsy: not only missing or empty, also null,
    false and 0 are answered 400 with no upstream call.  Every other
    value, of any type, leads to the upstream call: one POST to the
    create-task address whose body is the JSON text of an object
    with mode refine and that value as preview_task_id. *)
Theorem refine_refuses_exactly_the_falsy_ids
    (env : Env) (up : Upstream) (ps : gmap string string) (b : json) :
  b <> JNull ->
  (truthy (field b "preview_task_id") = false ->
   serve (refine_handler env) up {| body := Some b; params := ps |}
   = (error_response 400 "preview_task_id is required.", []))
  /\ (forall id : json,
        field b "preview_task_id" = Some id ->
        truthy (Some id) = true ->
        exists o : FetchOutcome,
          (serve (refine_handler env) up {| body := Some b; params := ps |}).2
          = [ {| call :=
                   {| input := Some (JString "https://api.meshy.ai/openapi/v2/text-to-3d");
                      init :=
                        Some {| method := "POST";
                                init_headers :=
                                  [ ("Content-Type", "application/json");
                                    ("Authorization", bearer env) ];
                                init_body :=
                                  Some (JSON.stringify
                                          (JObject
                                             [ ("mode", JString "refine");
                                               ("preview_task_id", id);
                                               ("enable_pbr",
                                                JBool (strict_eq_bool
                                                         (field b "enable_pbr") true)) ])) |} |};
                 outcome := o |} ]).
Proof.
  intros Hb. split; [by apply serve_refine_refused |].
  intros id Hid Ht. rewrite serve_refine_call by (done || by rewrite Hid).
  rewrite Hid. by eexists.
Qed.

Lemma refine_refuses_exactly_the_falsy_ids_witness :
  serve (refine_handler env0) (always (answer 200 (q "{'result':'t2'}")))
    (post (JObject [("preview_task_id", JNumber 0)]))
  = (error_response 400 "preview_task_id is required.", [])
  /\ exists o : FetchOutcome,
       (serve (refine_handler env0) (always (answer 200 (q "{'result':'t2'}")))
          (post (JObject [("preview_task_id", JNumber 7)]))).2
       = [ {| call :=
                {| input := Some (JString "https://api.meshy.ai/openapi/v2/text-to-3d");
                   init :=
                     Some {| method := "POST";
                             init_headers :=
                               [ ("Content-Type", "application/json");
                                 ("Authorization", "Bearer msy_test") ];
                             init_body :=
                               Some (q "{'mode':'refine','preview_task_id':7,'enable_pbr':false}") |} |};
              outcome := o |} ].
Proof.
  split.
  - apply (proj1 (refine_refuses_exactly_the_falsy_ids env0
                    (always (answer 200 (q "{'result':'t2'}"))) ∅
                    (JObject [("preview_task_id", JNumber 0)]) ltac:(discriminate))).
    reflexivity.
  - apply (proj2 (refine_refuses_exactly_the_falsy_ids env0
                    (always (answer 200 (q "{'result':'t2'}"))) ∅
                    (JObject [("preview_task_id", JNumber 7)]) ltac:(discriminate))
             (JNumber 7)); reflexivity.
Defined.



(** The text sent for an array as prompt and a number as art_style. *)
Example preview_untyped_body_text :
  List.map (fun e => init (call e) ≫= init_body)
    (serve (preview_handler env0) (always (answer 200 (q "{'result':'t1'}")))
       (post (JObject [("prompt", JArray [JNumber 1]); ("art_style", JNumber 7)]))).2
  = [ Some (q "{'mode':'preview','prompt':[1],'art_style':7,'should_remesh':true}") ].
Proof. reflexivity. Qed.

(** X10: a request whose body is undefined or null makes
    CreatePreviewTask and CreateRefineTask throw on the first line;
    the catch clause answers HTTP 500 and no upstream call is made,
    so for CreateRefineTask the 400 of the validation is not
    reached. *)
Theorem missing_body_is_a_server_error
    (env : Env) (up : Upstream) (req : Request) :
  nullish (body req) = true ->
  (exists msg, serve (preview_handler env) up req = (error_response 500 msg, []))
  /\ (exists msg, serve (refine_handler env) up req = (error_response 500 msg, [])).
Proof.
  destruct req as [[[] |] ps]; try discriminate; intros _; split; by eexists.
Qed.

Lemma missing_body_is_a_server_error_witness :
  exists msg,
    serve (refine_handler env0) (always (answer 200 (q "{'result':'t2'}")))
      {| body := None; params := ∅ |}
    = (error_response 500 msg, []).
Proof.
  refine (proj2
    (missing_body_is_a_server_error env0
       (always (answer 200 (q "{'result':'t2'}")))
       {| body := None; params := ∅ |} _)).
  reflexivity.
Defined.



(** ** More of DownloadModel *)

(** X12: DownloadModel answers 404 also when model_urls.glb is
    present but falsy (the empty string, null, false, 0): the test
    of line 154 is on truthiness, and no binary fetch is made. *)
Theorem download_falsy_glb_url
    (env : Env) (up : Upstream) (req : Request) (r : FetchResponse) (t glbUrl : json) :
  up [] (task_call env (params req !! "taskId")) = Resolved r ->
  ok r = true ->
  JSON.parse (response_body r) = Some t ->
  field t "status" = Some (JString "SUCCEEDED") ->
  optional_field (field t "model_urls") "glb" = Some glbUrl ->
  truthy (Some glbUrl) = false ->
  serve (download_handler env) up req
  = (error_response 404 "GLB URL not found.",
     [ {| call := task_call env (params req !! "taskId");
          outcome := Resolved r |} ]).
Proof.
  intros H Hok Hp Hs Hg Hf.
  rewrite (download_no_url env up req r t H Hok Hp Hs), H; [done |].
  by rewrite Hg.
Qed.

Lemma download_falsy_glb_url_witness :
  serve (download_handler env0)
    (always (answer 200 (q "{'status':'SUCCEEDED','model_urls':{'glb':''}}")))
    (get_task "t2")
  = (error_response 404 "GLB URL not found.",
     [ {| call := task_call env0 (Some "t2");
          outcome := answer 200 (q "{'status':'SUCCEEDED','model_urls':{'glb':''}}") |} ]).
Proof.
  apply (download_falsy_glb_url env0
           (always (answer 200 (q "{'status':'SUCCEEDED','model_urls':{'glb':''}}")))
           (get_task "t2") _
           (JObject [("status", JString "SUCCEEDED");
                     ("model_urls", JObject [("glb", JString "")])])
           (JString "")).
  - reflexivity.
  - reflexivity.
  - vm_compute. reflexivity.
  - reflexivity.
  - reflexivity.
  - reflexivity.
Defined.

(** X13: when the status fetch of DownloadModel succeeds with the
    JSON text null, reading taskData.status throws; the catch clause
    answers HTTP 500, not the 400 of an unfinished task, and no
    binary fetch is made. *)
Theorem download_null_task_is_a_server_error
    (env : Env) (up : Upstream) (req : Request) (r : FetchResponse) :
  up [] (task_call env (params req !! "taskId")) = Resolved r ->
  ok r = true ->
  JSON.parse (response_body r) = Some JNull ->
  exists msg,
    serve (download_handler env) up req
    = (error_response 500 msg,
       [ {| call := task_call env (params req !! "taskId");
            outcome := Resolved r |} ]).
Proof.
  intros H Hok Hp. rewrite serve_download. unfold downloaded.
  rewrite H, Hok, Hp. by eexists.
Qed.

Lemma download_null_task_is_a_server_error_witness :
  exists msg,
    serve (download_handler env0) (always (answer 200 "null")) (get_task "t2")
    = (error_response 500 msg,
       [ {| call := task_call env0 (Some "t2"); outcome := answer 200 "null" |} ]).
Proof.
  apply (download_null_task_is_a_server_error env0
           (always (answer 200 "null")) (get_task "t2")
           {| status := 200; statusText := ""; response_body := "null";
              json_error := "invalid json response body" |}).
  - reflexivity.
  - reflexivity.
  - reflexivity.
Defined.

(** X14: DownloadModel answers with status 200 only on the path that
    streams: both fetches were answered with a status in 200-299,
    the body sent is the body of the second answer and the two
    attachment headers are set. *)
Theorem download_success_is_the_model
    (env : Env) (up : Upstream) (req : Request) :
  statusCode (serve (download_handler env) up req).1 = 200 ->
  exists (r r2 : FetchResponse) (c2 : FetchCall),
    serve (download_handler env) up req
    = (streamed (params req !! "taskId") r2,
       [ {| call := task_call env (params req !! "taskId"); outcome := Resolved r |};
         {| call := c2; outcome := Resolved r2 |} ])
    /\ ok r = true
    /\ ok r2 = true.
Proof.
  rewrite serve_download. unfold downloaded.
  destruct (up [] _) as [msg | r] eqn:H; [done |].
  destruct (ok r) eqn:Hok.
  2: { cbn. intros E. unfold ok in Hok. by rewrite E in Hok. }
  destruct (JSON.parse (response_body r)) as [t |]; [| done].
  destruct t; try done;
    (destruct (strict_eq_string _ _); [| done]);
    (destruct (truthy _); [| done]);
    (destruct (up [_] _) as [msg | r2] eqn:H2; [done |]);
    (destruct (ok r2) eqn:Hok2; [| done]);
    (destruct (valid_header_value _); [| done]);
    intros _; by eexists r, r2, _.
Qed.

Lemma download_success_is_the_model_witness :
  exists (r r2 : FetchResponse) (c2 : FetchCall),
    serve (download_handler env0)
      (first_then
         (answer 200 (q "{'status':'SUCCEEDED','model_urls':{'glb':'https://cdn/m.glb'}}"))
         (answer 200 "glTF binary"))
      (get_task "t2")
    = (streamed (Some "t2") r2,
       [ {| call := task_call env0 (Some "t2"); outcome := Resolved r |};
         {| call := c2; outcome := Resolved r2 |} ])
    /\ ok r = true
    /\ ok r2 = true.
Proof.
  apply (download_success_is_the_model env0
           (first_then
              (answer 200 (q "{'status':'SUCCEEDED','model_urls':{'glb':'https://cdn/m.glb'}}"))
              (answer 200 "glTF binary"))
           (get_task "t2")).
  reflexivity.
Defined.

(** X15: once the status fetch of DownloadModel has succeeded with a
    body read as JSON, a second upstream call is made exactly when
    the task has status SUCCEEDED and a truthy model_urls.glb; that
    call is fetch(glbUrl) on that very value, with no second
    argument, and no third call is made. *)
Theorem binary_fetch_only_for_a_finished_task
    (env : Env) (up : Upstream) (req : Request) (r : FetchResponse) (t : json) :
  up [] (task_call env (params req !! "taskId")) = Resolved r ->
  ok r = true ->
  JSON.parse (response_body r) = Some t ->
  let glbUrl := optional_field (field t "model_urls") "glb" in
  let e1 := {| call := task_call env (params req !! "taskId");
               outcome := Resolved r |} in
  (field t "status" = Some (JString "SUCCEEDED") ->
   truthy glbUrl = true ->
   exists o : FetchOutcome,
     (serve (download_handler env) up req).2
     = [ e1; {| call := {| input := glbUrl; init := None |}; outcome := o |} ])
  /\ (field t "status" <> Some (JString "SUCCEEDED") \/ truthy glbUrl = false ->
      (serve (download_handler env) up req).2 = [ e1 ]).
Proof.
  intros H Hok Hp glbUrl e1. subst e1. split.
  - intros Hs Hg.
    rewrite (download_fetches_model env up req r t H Hok Hp Hs Hg), H.
    by eexists.
  - intros Hno. rewrite serve_download. unfold downloaded.
    rewrite H, Hok, Hp.
    destruct (strict_eq_string (field t "status") "SUCCEEDED") eqn:Hs.
    + apply strict_eq_string_true in Hs.
      destruct Hno as [Hno | Hg]; [done |].
      fold glbUrl. rewrite Hg. by destruct t.
    + by destruct t.
Qed.

Lemma binary_fetch_only_for_a_finished_task_witness :
  exists o : FetchOutcome,
    (serve (download_handler env0)
       (first_then
          (answer 200 (q "{'status':'SUCCEEDED','model_urls':{'glb':'https://cdn/m.glb'}}"))
          (answer 404 "gone"))
       (get_task "t2")).2
    = [ {| call := task_call env0 (Some "t2");
           outcome :=
             answer 200 (q "{'status':'SUCCEEDED','model_urls':{'glb':'https://cdn/m.glb'}}") |};
        {| call := {| input := Some (JString "https://cdn/m.glb"); init := None |};
           outcome := o |} ].
Proof.
  refine (proj1
    (binary_fetch_only_for_a_finished_task env0
       (first_then
          (answer 200 (q "{'status':'SUCCEEDED','model_urls':{'glb':'https://cdn/m.glb'}}"))
          (answer 404 "gone"))
       (get_task "t2") _
       (JObject [("status", JString "SUCCEEDED");
                 ("model_urls", JObject [("glb", JString "https://cdn/m.glb")])])
       _ _ _) _ _).
  - reflexivity.
  - reflexivity.
  - vm_compute. reflexivity.
  - reflexivity.
  - reflexivity.
Defined.

(** X16: as long as the read of the task does not succeed (the call
    is rejected or answered with a status outside 200-299),
    DownloadModel behaves exactly as GetTaskStatus: the same call,
    the same response. *)
Theorem download_fails_like_task_status
    (env : Env) (up : Upstream) (req : Request) :
  (forall r, up [] (task_call env (params req !! "taskId")) = Resolved r ->
             ok r = false) ->
  serve (download_handler env) up req = serve (task_handler env) up req.
Proof.
  intros Hfail. rewrite serve_download, serve_task. unfold downloaded.
  destruct (up [] _) as [msg | r] eqn:H; [done |].
  cbn [relayed]. by rewrite (Hfail r eq_refl).
Qed.

Lemma download_fails_like_task_status_witness :
  serve (download_handler env0) (always (answer 404 "no such task")) (get_task "t9")
  = serve (task_handler env0) (always (answer 404 "no such task")) (get_task "t9").
Proof.
  apply (download_fails_like_task_status env0
           (always (answer 404 "no such task")) (get_task "t9")).
  intros r [= <-]. reflexivity.
Defined.
